(** * The directory organizer of [file_organizer.py]

    A shallow embedding of the [file_organizer] tool: the path helpers it
    takes from [pathlib] ([suffix], [stem]), the category table, the
    classification loop, the collision loop, the moves on a small model of
    the directory tree, and the summary text; and, of the assistant page
    ([AWS_file_mgmt_assistant.py]), the queries of the buttons, the keyword
    filter and what is shown for a query.

    Conventions.
    - A Python [str] is a [string] of bytes; [str.lower] acts on the ASCII
      letters (the extensions of the table are ASCII).
    - [Path.suffix] and [Path.stem] follow pathlib's
      [i = name.rfind('.'); 0 < i < len(name) - 1] definition.
    - The directory the source path names is a list of entries in the order
      [iterdir] yields them. A category folder holds a finite map from names
      to files or directories. Symbolic links are not modelled.
    - Exceptions are those the file-system calls raise; all of them are
      subclasses of [Exception]. *)

From Stdlib Require Import ZArith Lia Ascii.
From stdpp Require Import base strings pretty gmap list sorting.

Open Scope string_scope.
Open Scope nat_scope.
Open Scope list_scope.

(** ** Python strings *)

Module Py.

Definition nl : string := String (Ascii.ascii_of_nat 10) "".

(** [c.lower()] on one ASCII character. *)
Definition lower_ascii (c : ascii) : ascii :=
  let n := Ascii.nat_of_ascii c in
  if (65 <=? n)%nat && (n <=? 90)%nat then Ascii.ascii_of_nat (n + 32) else c.

(** [s.lower()] *)
Fixpoint lower (s : string) : string :=
  match s with
  | "" => ""
  | String c r => String (lower_ascii c) (lower r)
  end.

(** [len(s)] *)
Definition len (s : string) : Z := Z.of_nat (String.length s).

(** [s.rfind(c)]: the index of the last occurrence, [-1] when absent. *)
Fixpoint rfind (c : ascii) (s : string) : Z :=
  match s with
  | "" => -1
  | String a r =>
      let i := rfind c r in
      if (0 <=? i)%Z then (i + 1)%Z
      else if Ascii.eqb a c then 0%Z else (-1)%Z
  end.

(** [s[:i]] and [s[i:]] for [0 <= i]. *)
Fixpoint take (n : nat) (s : string) : string :=
  match n, s with
  | S k, String a r => String a (take k r)
  | _, _ => ""
  end.

Fixpoint drop (n : nat) (s : string) : string :=
  match n, s with
  | S k, String _ r => drop k r
  | _, _ => s
  end.

(** [str(n)] for a non-negative integer. *)
Definition str (n : nat) : string := pretty n.

(** [sep.join(l)] *)
Fixpoint join (sep : string) (l : list string) : string :=
  match l with
  | [] => ""
  | [x] => x
  | x :: r => x +:+ sep +:+ join sep r
  end.

(** [s.startswith(t)] *)
Definition startswith (s t : string) : bool := String.prefix t s.

(** [x in l] for a list of strings. *)
Definition mem (x : string) (l : list string) : bool := bool_decide (x ∈ l).

(** Truthiness of an optional string: [None] and [''] are falsy. *)
Definition truthy (o : option string) : bool :=
  match o with
  | None => false
  | Some "" => false
  | Some _ => true
  end.

End Py.

(** ** pathlib *)

Module PurePath.

(** [Path(name).suffix] *)
Definition suffix (name : string) : string :=
  let i := Py.rfind "." name in
  if (0 <? i)%Z && (i <? Py.len name - 1)%Z then Py.drop (Z.to_nat i) name else "".

(** [Path(name).stem] *)
Definition stem (name : string) : string :=
  let i := Py.rfind "." name in
  if (0 <? i)%Z && (i <? Py.len name - 1)%Z then Py.take (Z.to_nat i) name else name.

End PurePath.

(** ** The category table *)

Definition file_categories : list (string * list string) :=
  [ ("Word Documents", [".doc"; ".docx"; ".rtf"; ".odt"]);
    ("Excel Documents", [".xls"; ".xlsx"; ".csv"; ".ods"]);
    ("PowerPoint Documents", [".ppt"; ".pptx"; ".odp"]);
    ("PDF Documents", [".pdf"]);
    ("Images", [".jpg"; ".jpeg"; ".png"; ".gif"; ".bmp"; ".tiff"; ".svg"; ".webp"]);
    ("Videos", [".mp4"; ".avi"; ".mkv"; ".mov"; ".wmv"; ".flv"; ".webm"]);
    ("Audio", [".mp3"; ".wav"; ".flac"; ".aac"; ".ogg"; ".wma"]);
    ("Archives", [".zip"; ".rar"; ".7z"; ".tar"; ".gz"]);
    ("Text Files", [".txt"; ".md"; ".log"]);
    ("Code Files", [".py"; ".js"; ".html"; ".css"; ".java"; ".cpp"; ".c"; ".php"]);
    ("Executables", [".exe"; ".msi"; ".bat"; ".cmd"; ".sh"; ".run"; ".deb"; ".rpm"; ".appimage"]) ].

(** The [for category, extensions in file_categories.items()] loop with its
    [break]: [target_folder] starts as [None] and is set at the first
    category whose list holds the extension. *)
Fixpoint category_loop (items : list (string * list string)) (file_extension : string)
  : option string :=
  match items with
  | [] => None
  | (category, extensions) :: rest =>
      if Py.mem file_extension extensions then Some category
      else category_loop rest file_extension
  end.

(** Lines 70-81: the folder a file name is assigned. *)
Definition target_folder_in (table : list (string * list string)) (name : string) : string :=
  let file_extension := Py.lower (PurePath.suffix name) in
  let target_folder := category_loop table file_extension in
  if negb (Py.truthy target_folder) then "Other Files" else default "" target_folder.

Definition target_folder_of (name : string) : string :=
  target_folder_in file_categories name.

(** ** The texts of the report, as the source file has them *)

Module Text.
Definition msg_complete : string := "âœ… File organization complete!".
Definition msg_before : string := "ğŸ“‹ BEFORE: ".
Definition msg_changes : string := "ğŸ”„ CHANGES MADE:".
Definition bullet : string := "â€¢ ".
Definition arrow : string := " â†’ ".
Definition msg_after : string := "ğŸ“‚ AFTER: Created ".
Definition msg_location : string := "ğŸ“ Location: ".
Definition msg_permission : string := "âŒ Error: Permission denied. Run as administrator or check file permissions.".
Definition msg_error : string := "âŒ Error organizing files: ".
End Text.

(** ** The directory tree

    An entry of a category folder is a regular file with its contents or a
    directory, of which only the names it holds matter. An entry of the
    source directory is a regular file or a folder with its write
    permission and its entries. *)

Inductive leaf :=
  | LFile (data : string)
  | LDir (names : gset string).

Inductive node :=
  | NFile (data : string)
  | NDir (writable : bool) (kids : gmap string leaf).

Record dir := Dir {
  dir_writable : bool;
  entries : list (string * node)
}.

(** What the source path names. *)
Inductive fsobj :=
  | Missing
  | Regular (data : string)
  | Directory (d : dir).

Fixpoint entry (name : string) (l : list (string * node)) : option node :=
  match l with
  | [] => None
  | (n, x) :: r => if decide (n = name) then Some x else entry name r
  end.

Definition remove_entry (name : string) (l : list (string * node)) : list (string * node) :=
  filter (λ p, p.1 ≠ name) l.

Fixpoint set_entry (name : string) (x : node) (l : list (string * node))
  : list (string * node) :=
  match l with
  | [] => []
  | (n, y) :: r => if decide (n = name) then (n, x) :: r else (n, y) :: set_entry name x r
  end.

Definition is_file (x : node) : bool :=
  match x with NFile _ => true | NDir _ _ => false end.

(** The names of the regular files among some entries, in their order. *)
Definition files_of (l : list (string * node)) : list string :=
  (filter (λ p, is_file p.2) l).*1.
Arguments files_of : simpl never.

(** ** Exceptions *)

Inductive exn :=
  | PermissionError (descr : string)
  | NotADirectoryError (descr : string)
  | FileNotFoundError (descr : string)
  | FileExistsError (descr : string)
  | ShutilError (descr : string).

(** [isinstance(e, PermissionError)] *)
Definition is_permission_error (e : exn) : bool :=
  match e with PermissionError _ => true | _ => false end.

(** [str(e)] *)
Definition str_exn (e : exn) : string :=
  match e with
  | PermissionError s | NotADirectoryError s | FileNotFoundError s
  | FileExistsError s | ShutilError s => s
  end.

Definition joinpath (a b : string) : string := a +:+ "/" +:+ b.

Definition quoted (p : string) : string := "'" +:+ p +:+ "'".

Definition EACCES (p : string) : exn :=
  PermissionError ("[Errno 13] Permission denied: " +:+ quoted p).
Definition ENOTDIR (p : string) : exn :=
  NotADirectoryError ("[Errno 20] Not a directory: " +:+ quoted p).
Definition ENOENT (p : string) : exn :=
  FileNotFoundError ("[Errno 2] No such file or directory: " +:+ quoted p).
Definition EEXIST (p : string) : exn :=
  FileExistsError ("[Errno 17] File exists: " +:+ quoted p).

(** ** Computations on the source directory

    A computation ends with a value, with an exception, or does not end
    (a loop that ran out of the steps it was given). *)

Inductive result (A S : Type) :=
  | Val (a : A) (s : S)
  | Exc (e : exn) (s : S)
  | Div.
Arguments Val {A S} a s.
Arguments Exc {A S} e s.
Arguments Div {A S}.

Definition M (A : Type) : Type := dir → result A dir.

Global Instance M_ret : MRet M := λ A a d, Val a d.
Global Instance M_bind : MBind M := λ A B f m d,
  match m d with
  | Val a d' => f a d'
  | Exc e d' => Exc e d'
  | Div => Div
  end.

Definition raise {A} (e : exn) : M A := λ d, Exc e d.
Definition diverge {A} : M A := λ _, Div.
Definition get_dir : M dir := λ d, Val d d.
Definition put_dir (d : dir) : M () := λ _, Val () d.

(** ** The file-system calls of the loop body

    The write permission of a directory decides whether entries can be
    added to it or removed from it; reading is always allowed. *)

(** [(source_path / folder).exists()] *)
Definition folder_exists (folder : string) : M bool :=
  d ← get_dir;
  mret (bool_decide (is_Some (entry folder (entries d)))).

(** [(source_path / folder).mkdir(exist_ok=True)] *)
Definition mkdir (source_directory folder : string) : M () :=
  d ← get_dir;
  match entry folder (entries d) with
  | Some (NDir _ _) => mret ()
  | Some (NFile _) => raise (EEXIST (joinpath source_directory folder))
  | None =>
      if dir_writable d
      then put_dir (Dir (dir_writable d) (entries d ++ [(folder, NDir true ∅)]))
      else raise (EACCES (joinpath source_directory folder))
  end.

(** [(source_path / folder / name).exists()]; a path through a regular
    file does not exist. *)
Definition file_exists (folder name : string) : M bool :=
  d ← get_dir;
  mret (match entry folder (entries d) with
        | Some (NDir _ kids) => bool_decide (is_Some (kids !! name))
        | _ => false
        end).

(** [shutil.move(str(source_path / name), str(source_path / folder / new_name))]
    for a regular file [name]. [os.rename] needs both directories writable
    and replaces a regular file at the destination; when it fails the file
    is copied and the source unlinked. A destination that is a directory
    receives the file under its own name. *)
Definition shutil_move (source_directory name folder new_name : string) : M () :=
  d ← get_dir;
  let src := joinpath source_directory name in
  let dst := joinpath (joinpath source_directory folder) new_name in
  match entry name (entries d) with
  | Some (NFile data) =>
      match entry folder (entries d) with
      | Some (NDir w kids) =>
          let arrive (x : leaf) (es : list (string * node)) :=
            set_entry folder (NDir w (<[new_name := x]> kids)) es in
          match kids !! new_name with
          | Some (LDir names) =>
              if bool_decide (name ∈ names)
              then raise (ShutilError ("Destination path " +:+ quoted (joinpath dst name)
                                       +:+ " already exists"))
              else if dir_writable d
              then put_dir (Dir (dir_writable d)
                     (arrive (LDir ({[name]} ∪ names)) (remove_entry name (entries d))))
              else put_dir (Dir (dir_writable d)
                     (arrive (LDir ({[name]} ∪ names)) (entries d)));;
                   raise (EACCES src)
          | _ =>
              if negb w then raise (EACCES dst)
              else if dir_writable d
              then put_dir (Dir (dir_writable d)
                     (arrive (LFile data) (remove_entry name (entries d))))
              else put_dir (Dir (dir_writable d) (arrive (LFile data) (entries d)));;
                   raise (EACCES src)
          end
      | Some (NFile _) => raise (ENOTDIR dst)
      | None => raise (ENOENT dst)
      end
  | _ => raise (ENOENT src)
  end.

(** ** The loop body (lines 69-112) *)

Record move := Move {
  m_file : string;
  m_from : string;
  m_to : string;
  m_new_name : string
}.

Record acc := Acc {
  organized_count : nat;
  created_folders : gset string;
  file_moves : list move
}.

(** Line 99: [f"{original_name}_{counter}{extension}"]. *)
Definition candidate (original_name extension : string) (counter : nat) : string :=
  original_name +:+ "_" +:+ Py.str counter +:+ extension.

(** Lines 98-101: [while target_file_path.exists()]. Each round asks the
    directory again. [steps] bounds the rounds the model follows. *)
Fixpoint dedup_loop (steps : nat) (folder original_name extension : string)
    (target_file_name : string) (counter : nat) : M string :=
  match steps with
  | O => diverge
  | S k =>
      e ← file_exists folder target_file_name;
      if e : bool
      then dedup_loop k folder original_name extension
             (candidate original_name extension counter) (S counter)
      else mret target_file_name
  end.

(** The entries of a category folder; none when the folder is absent or is
    a regular file. *)
Definition folder_kids (folder : string) (d : dir) : gmap string leaf :=
  match entry folder (entries d) with
  | Some (NDir _ kids) => kids
  | _ => ∅
  end.

(** Number of names held by a category folder. *)
Definition folder_size (folder : string) (d : dir) : nat :=
  size (folder_kids folder d).

(** Whether a name is taken in a category folder. *)
Definition occupied (folder : string) (d : dir) (name : string) : bool :=
  bool_decide (is_Some (folder_kids folder d !! name)).

(** Lines 91-101, with as many rounds as the folder has names, and two more. *)
Definition dedup (folder name : string) : M string :=
  d ← get_dir;
  dedup_loop (S (S (folder_size folder d))) folder
    (PurePath.stem name) (PurePath.suffix name) name 1.

Definition process_file (source_directory : string) (a : acc) (name : string) : M acc :=
  let target_folder := target_folder_of name in
  present ← folder_exists target_folder;
  created ← (if negb present
             then mkdir source_directory target_folder;;
                  mret ({[target_folder]} ∪ created_folders a)
             else mret (created_folders a));
  new_name ← dedup target_folder name;
  shutil_move source_directory name target_folder new_name;;
  mret {| organized_count := S (organized_count a);
          created_folders := created;
          file_moves := file_moves a ++ [Move name "Root Directory" target_folder new_name] |}.

(** How the [for file_path in files] loop ended. *)
Inductive ending :=
  | Completed
  | Aborted (e : exn) (at_file : string)
  | Hung (at_file : string).

(** The loop over the snapshot. At an exception it stops at once; the result
    keeps the bookkeeping and the directory of that moment. *)
Fixpoint process_files (source_directory : string) (files : list string)
    (a : acc) (d : dir) : acc * dir * ending :=
  match files with
  | [] => (a, d, Completed)
  | f :: rest =>
      match process_file source_directory a f d with
      | Val a' d' => process_files source_directory rest a' d'
      | Exc e d' => (a, d', Aborted e f)
      | Div => (a, d, Hung f)
      end
  end.

(** ** The report (lines 116-138) *)

Definition change_line (m : move) : string :=
  if negb (String.eqb (m_file m) (m_new_name m))
  then Text.bullet +:+ m_file m +:+ Text.arrow +:+ m_to m +:+ "/" +:+ m_new_name m
       +:+ " (renamed)" +:+ Py.nl
  else Text.bullet +:+ m_file m +:+ Text.arrow +:+ m_to m +:+ "/" +:+ Py.nl.

Definition folder_files (moves : list move) (folder : string) : list string :=
  m_new_name <$> filter (λ m, m_to m = folder) moves.

Definition folder_line (moves : list move) (folder : string) : string :=
  Text.bullet +:+ folder +:+ ": " +:+ Py.str (length (folder_files moves folder))
  +:+ " files" +:+ Py.nl.

(** [sorted(created_folders)] *)
Definition sorted (s : gset string) : list string :=
  merge_sort String.le (elements s).

Fixpoint concat (l : list string) : string :=
  match l with
  | [] => ""
  | x :: r => x +:+ concat r
  end.

Definition before_part (before_state : list string) : string :=
  Text.msg_before +:+ Py.str (length before_state) +:+ " files in root directory" +:+ Py.nl
  +:+ "Files: " +:+ Py.join ", " (take 5 before_state)
  +:+ (if (5 <? length before_state)%nat then "..." else "") +:+ Py.nl +:+ Py.nl.

Definition changes_part (moves : list move) : string :=
  Text.msg_changes +:+ Py.nl +:+ concat (change_line <$> moves).

Definition after_part (created : gset string) (moves : list move) : string :=
  Py.nl +:+ Text.msg_after +:+ Py.str (size created) +:+ " folders" +:+ Py.nl
  +:+ concat (folder_line moves <$> sorted created).

Definition location_part (source_directory : string) : string :=
  Py.nl +:+ Text.msg_location +:+ source_directory.

Definition summary (source_directory : string) (before_state : list string) (a : acc)
  : string :=
  Text.msg_complete +:+ Py.nl +:+ Py.nl
  +:+ before_part before_state
  +:+ changes_part (file_moves a)
  +:+ after_part (created_folders a) (file_moves a)
  +:+ location_part source_directory.

(** ** [file_organizer] *)

(** [[f for f in source_path.iterdir() if f.is_file()]], by name. *)
Definition regular_files (d : dir) : list string := files_of (entries d).

Definition msg_not_exist (source_directory : string) : string :=
  "Error: Directory " +:+ quoted source_directory +:+ " does not exist".
Definition msg_not_dir (source_directory : string) : string :=
  "Error: " +:+ quoted source_directory +:+ " is not a directory".
Definition msg_no_files (source_directory : string) : string :=
  "No files found in " +:+ quoted source_directory.

Definition path_exists (w : fsobj) : bool :=
  match w with Missing => false | _ => true end.
Definition path_is_dir (w : fsobj) : bool :=
  match w with Directory _ => true | _ => false end.

Definition empty_acc : acc := Acc 0 ∅ [].

(** Lines 53-138 on a directory. *)
Definition organize (source_directory : string) (d : dir) : result string fsobj :=
  let files := regular_files d in
  if bool_decide (files = []) then Val (msg_no_files source_directory) (Directory d)
  else
    let before_state := files in
    match process_files source_directory files empty_acc d with
    | (a, d', Completed) => Val (summary source_directory before_state a) (Directory d')
    | (_, d', Aborted e _) => Exc e (Directory d')
    | (_, _, Hung _) => Div
    end.

(** The body of the [try] (lines 46-138). *)
Definition file_organizer_try (source_directory : string) (organize_by_type : bool)
    (w : fsobj) : result string fsobj :=
  if negb (path_exists w) then Val (msg_not_exist source_directory) w
  else if negb (path_is_dir w) then Val (msg_not_dir source_directory) w
  else match w with
       | Directory d => organize source_directory d
       | _ => Exc (ENOTDIR source_directory) w
       end.

(** The function with its two handlers (lines 142-145). *)
Definition file_organizer (source_directory : string) (organize_by_type : bool)
    (w : fsobj) : result string fsobj :=
  match file_organizer_try source_directory organize_by_type w with
  | Val s w' => Val s w'
  | Exc e w' =>
      if is_permission_error e then Val Text.msg_permission w'
      else Val (Text.msg_error +:+ str_exn e) w'
  | Div => Div
  end.


(** ** Descriptions used by the statements *)

(** The directory once the category folder is known to be there: as it was
    when the folder existed, with a new empty folder at the end otherwise. *)
Definition after_mkdir (folder : string) (d : dir) : dir :=
  match entry folder (entries d) with
  | None => Dir (dir_writable d) (entries d ++ [(folder, NDir true ∅)])
  | Some _ => d
  end.

(** [new_name] is the name the collision loop settles on for [name] in a
    folder holding [kids]: the name itself when it is free, and otherwise
    the candidate of the least counter from 1 on that is free. *)
Definition first_free (name : string) (kids : gmap string leaf) (new_name : string) : Prop :=
  kids !! new_name = None ∧
  ((new_name = name) ∨
   (is_Some (kids !! name) ∧
    ∃ n, 1 ≤ n ∧ new_name = candidate (PurePath.stem name) (PurePath.suffix name) n ∧
         ∀ j, 1 ≤ j < n →
              is_Some (kids !! candidate (PurePath.stem name) (PurePath.suffix name) j))).

(** Whether a name of the source directory is a folder. *)
Definition is_folder (d : dir) (c : string) : bool :=
  match entry c (entries d) with
  | Some (NDir _ _) => true
  | _ => false
  end.

(** Every folder of [d] is a folder of [d'] with the same permission and
    at least the entries it had, unchanged. *)
Definition keeps_folders (d d' : dir) : Prop :=
  ∀ c w kids, entry c (entries d) = Some (NDir w kids) →
    ∃ kids', entry c (entries d') = Some (NDir w kids') ∧ kids ⊆ kids'.

(** Every regular file of [d] whose name is not in [moved] is a regular
    file of [d'] with the same contents. *)
Definition keeps_files (moved : list string) (d d' : dir) : Prop :=
  ∀ r data, r ∉ moved →
    entry r (entries d) = Some (NFile data) → entry r (entries d') = Some (NFile data).

(** Every regular file of [d'] is one of [d]. *)
Definition no_new_files (d d' : dir) : Prop :=
  ∀ r data, entry r (entries d') = Some (NFile data) → entry r (entries d) = Some (NFile data).

(** The folder [folder] of [d] holds a regular file [new_name] with
    contents [data]. *)
Definition holds (d : dir) (folder new_name data : string) : Prop :=
  ∃ w kids, entry folder (entries d) = Some (NDir w kids) ∧ kids !! new_name = Some (LFile data).

(** A run of rounds of the loop that all ended without an exception. *)
Inductive run (source_directory : string) : list string → acc → dir → acc → dir → Prop :=
  | run_nil a d : run source_directory [] a d a d
  | run_cons f rest a d a1 d1 a' d' :
      process_file source_directory a f d = Val a1 d1 →
      run source_directory rest a1 d1 a' d' →
      run source_directory (f :: rest) a d a' d'.


(** [s] ends with [t]. *)
Definition ends_with (s t : string) : Prop := ∃ pre, s = pre +:+ t.

(** ** Sample directories *)

Module Sample.

(** Three files of three kinds and a subdirectory. *)
Definition mixed : dir :=
  Dir true [("a.jpg", NFile "A"); ("b.pdf", NFile "B"); ("c.unknownext", NFile "C");
            ("sub", NDir true ∅)].

(** [x.png] in the root while [Images/x.png] is there already. *)
Definition collision : dir :=
  Dir true [("x.png", NFile "new"); ("Images", NDir true {[ "x.png" := LFile "old" ]})].


(** A dotfile and a file without a dot. *)
Definition dotfiles : dir :=
  Dir true [(".bashrc", NFile "rc"); ("README", NFile "readme")].

(** The [Images] folder cannot be written to; [notes.txt] comes first. *)
Definition locked : dir :=
  Dir true [("notes.txt", NFile "N"); ("a.png", NFile "A"); ("b.md", NFile "B");
            ("Images", NDir false ∅)].

(** A regular file sits where the [Images] folder would go. *)
Definition blocked : dir :=
  Dir true [("notes.txt", NFile "N"); ("a.png", NFile "A"); ("b.md", NFile "B");
            ("Images", NFile "")].

(** Seven files, two of them bound for a folder that holds their names. *)
Definition seven : dir :=
  Dir true [("1.txt", NFile "1"); ("2.txt", NFile "2"); ("3.PNG", NFile "3");
            ("4.md", NFile "4"); ("5", NFile "5"); ("6.zip", NFile "6");
            ("7.log", NFile "7");
            ("Text Files", NDir true {[ "1.txt" := LFile "old1"; "1_1.txt" := LDir ∅ ]})].

(** The state of the loop when it ends on a sample. *)
Definition loop_end (d : dir) : acc * dir * ending :=
  process_files "docs" (regular_files d) empty_acc d.

Definition collision_end : acc * dir * ending := Eval vm_compute in loop_end collision.
Definition mixed_end : acc * dir * ending := Eval vm_compute in loop_end mixed.
Definition seven_end : acc * dir * ending := Eval vm_compute in loop_end seven.
Definition locked_end : acc * dir * ending := Eval vm_compute in loop_end locked.
Definition blocked_end : acc * dir * ending := Eval vm_compute in loop_end blocked.
Definition dotfiles_end : acc * dir * ending := Eval vm_compute in loop_end dotfiles.

(** The bookkeeping and the directory after one round that ended well. *)
Definition round_end (r : result acc dir) : acc * dir :=
  match r with
  | Val a d => (a, d)
  | _ => (empty_acc, Dir true [])
  end.

Definition bashrc_round : acc * dir :=
  Eval vm_compute in round_end (process_file "docs" empty_acc ".bashrc" dotfiles).
Definition collision_round : acc * dir :=
  Eval vm_compute in round_end (process_file "docs" empty_acc "x.png" collision).

End Sample.

(** ** The assistant page ([AWS_file_mgmt_assistant.py])

    The parts of [main] that compute with the query text: the queries the
    buttons set, the keyword filter, and what is shown for a query. The
    agent is a collaborator outside the repository: it is a function from
    the query to the text of its answer or to the text of an exception. *)

Module Assistant.

Definition dq : string := String (Ascii.ascii_of_nat 34) "".

(** [sub in s] for two strings. *)
Fixpoint contains (sub s : string) : bool :=
  String.prefix sub s ||
  match s with
  | "" => false
  | String _ r => contains sub r
  end.

(** Lines 68-75: the regions of the select box. *)
Definition regions : list string :=
  ["us-east-1"; "us-east-2"; "us-west-1"; "us-west-2";
   "eu-west-1"; "eu-central-1"; "ap-southeast-1"; "ap-northeast-1"].

(** Lines 92-115: the quick action buttons, each with its label and the
    query it sets. *)
Definition quick_actions (region : string) : list (string * string) :=
  [ ("🪣 All S3 Buckets",
     "List all my S3 buckets");
    ("🪣 Buckets Starting with S",
     "List all buckets that start with S");
    ("💻 All EC2 Instances",
     "Show all EC2 instances in " +:+ region);
    ("💻 Running in " +:+ region,
     "How many instances are running in " +:+ region +:+ "?");
    ("⚡ All Lambda Functions",
     "List all Lambda functions in " +:+ region);
    ("⚡ Top Lambda Functions",
     "What are your top Lambda functions in " +:+ region +:+ "?");
    ("💰 Cost Summary",
     "Show my AWS cost summary");
    ("🕐 Current Time",
     "What is the current time?") ].

(** Line 152: the query of the organize button. *)
Definition organize_query (folder_path : string) : string :=
  "Organize files in " +:+ folder_path.

(** Lines 171-175. *)
Definition tool_keywords : list string :=
  ["list tools";
   "show tools";
   "what tools";
   "available tools";
   "tool list";
   "tools available";
   "display tools";
   "get tools";
   "all tools";
   "tools list";
   "which tools";
   "tools you have";
   "your tools";
   "help tools";
   "tool help"].

(** Lines 170 and 177: [any(keyword in query_lower for keyword in tool_keywords)]. *)
Definition is_tool_request (query : string) : bool :=
  let query_lower := Py.lower query in
  existsb (λ keyword, contains keyword query_lower) tool_keywords.

(** The calls that put something on the page. *)
Inductive widget :=
  | Markdown (body : string)
  | Info (body : string)
  | Warning (body : string)
  | Success (body : string)
  | Error (body : string)
  | Spinner (body : string).

Definition refusal : string :=
  "🔒 I apologize, but I cannot provide a list of available tools for security reasons.".

Definition refusal_help : string :=
  Py.nl +:+ "            **Instead, I can help you with these types of requests:**" +:+ Py.nl +:+
  "            - " +:+ dq +:+ "List S3 buckets" +:+ dq +:+ Py.nl +:+
  "            - " +:+ dq +:+ "List EC2 instances in us-west-2" +:+ dq +:+ Py.nl +:+
  "            - " +:+ dq +:+ "Show Lambda functions" +:+ dq +:+ Py.nl +:+
  "            - " +:+ dq +:+ "Organize files in C:\Users\YourName\TestFolder" +:+ dq +:+ Py.nl +:+
  "            - " +:+ dq +:+ "What is the current time?" +:+ dq +:+ Py.nl +:+
  "            ".

(** The agent: the text of its answer, or the text of the exception it
    raises. *)
Definition agent : Type := string → string + string.

(** Lines 24-32: the output streams are set aside and the answer of the
    agent is returned as text. *)
Definition execute_query (a : agent) (query : string) : string + string := a query.

(** Lines 164-194: what is shown for the query of the session. *)
Definition show_query (a : agent) (query : string) : list widget :=
  if bool_decide (query = "") then []
  else
    [Markdown "---"; Info ("🎯 Query: " +:+ query)] ++
    if is_tool_request query then [Warning refusal; Markdown refusal_help]
    else
      Spinner "Processing your AWS query..." ::
      match execute_query a query with
      | inl result =>
          [Success "✅ Operation Complete";
           Markdown ("**Result:**" +:+ Py.nl +:+ Py.nl +:+ "```" +:+ Py.nl +:+ result
                     +:+ Py.nl +:+ "```")]
      | inr e => [Error ("❌ Error: " +:+ e)]
      end.

End Assistant.

(** ** Descriptions for the keyword filter *)

(** [t] is what is left of [s] from some position on. *)
Fixpoint has_suffix (s t : string) : bool :=
  String.eqb s t ||
  match s with
  | "" => false
  | String _ r => has_suffix r t
  end.

(** Some proper, non-empty beginning of [sub] is an end of [s]: an
    occurrence of [sub] could start in [s] and run on into what follows. *)
Definition crossing (s sub : string) : bool :=
  existsb (λ i, has_suffix s (Py.take i sub)) (seq 1 (String.length sub - 1)).

(** * Properties *)

(** ** Path helpers on examples *)

Example suffix_png : PurePath.suffix "Photo.PNG" = ".PNG". Proof. reflexivity. Qed.
Example suffix_bashrc : PurePath.suffix ".bashrc" = "". Proof. reflexivity. Qed.
Example suffix_trailing : PurePath.suffix "foo." = "". Proof. reflexivity. Qed.
Example suffix_targz : PurePath.suffix "a.tar.gz" = ".gz". Proof. reflexivity. Qed.
Example stem_targz : PurePath.stem "a.tar.gz" = "a.tar". Proof. reflexivity. Qed.
Example folder_png : target_folder_of "Photo.PNG" = "Images". Proof. reflexivity. Qed.
Example str_10 : Py.str 10 = "10". Proof. reflexivity. Qed.

(** ** Strings *)

Section strings.

Lemma string_app_nil (s : string) : "" +:+ s = s.
Proof. reflexivity. Qed.

Lemma string_app_cons (c : ascii) (s1 s2 : string) :
  String c s1 +:+ s2 = String c (s1 +:+ s2).
Proof. reflexivity. Qed.

Lemma string_app_assoc (s1 s2 s3 : string) : (s1 +:+ s2) +:+ s3 = s1 +:+ s2 +:+ s3.
Proof.
  induction s1 as [|c s1 IH]; [done|].
  by rewrite !string_app_cons, IH.
Qed.

Lemma string_app_length (s1 s2 : string) :
  String.length (s1 +:+ s2) = String.length s1 + String.length s2.
Proof.
  induction s1 as [|c s1 IH]; [done|].
  rewrite string_app_cons. cbn. by rewrite IH.
Qed.

Lemma string_app_inv_tail (s1 s2 t : string) : s1 +:+ t = s2 +:+ t → s1 = s2.
Proof.
  revert s2. induction s1 as [|c s1 IH]; intros [|c2 s2] H;
    rewrite ?string_app_cons, ?string_app_nil in H.
  - done.
  - apply (f_equal String.length) in H. cbn in H.
    rewrite string_app_length in H. lia.
  - apply (f_equal String.length) in H. cbn in H.
    rewrite string_app_length in H. lia.
  - injection H as -> H. f_equal. by apply IH.
Qed.

End strings.

Lemma candidate_inj st ex : Inj (=) (=) (candidate st ex).
Proof.
  intros n m H. unfold candidate in H.
  apply (inj (String.app st)) in H.
  apply (inj (String.app "_")) in H.
  apply string_app_inv_tail in H.
  by apply (inj pretty) in H.
Qed.

(** ** Entries of the source directory *)

Section entries.
Implicit Types (l : list (string * node)) (n c : string) (x : node).

Lemma entry_app l n c x :
  entry n (l ++ [(c, x)]) =
    match entry n l with
    | Some y => Some y
    | None => if decide (c = n) then Some x else None
    end.
Proof.
  induction l as [|[m y] l IH]; cbn; [done|].
  by destruct (decide (m = n)).
Qed.

Lemma entry_set_entry l n c x :
  entry n (set_entry c x l) =
    if decide (c = n) then (λ _, x) <$> entry n l else entry n l.
Proof.
  induction l as [|[m y] l IH]; cbn.
  - by destruct (decide (c = n)).
  - destruct (decide (m = c)) as [->|Hmc]; cbn.
    + by destruct (decide (c = n)).
    + destruct (decide (m = n)) as [->|Hmn].
      * by rewrite decide_False.
      * done.
Qed.

Lemma entry_remove_entry l n m :
  entry n (remove_entry m l) = if decide (m = n) then None else entry n l.
Proof.
  unfold remove_entry.
  induction l as [|[k y] l IH].
  - cbn. by destruct (decide (m = n)).
  - rewrite filter_cons. destruct (decide ((k, y).1 ≠ m)) as [Hk|Hk]; cbn in *.
    + destruct (decide (k = n)) as [->|Hkn]; [|done].
      by rewrite decide_False.
    + apply dec_stable in Hk as ->. rewrite IH.
      destruct (decide (m = n)); done.
Qed.


Lemma files_of_nil : files_of [] = [].
Proof. reflexivity. Qed.

Lemma files_of_cons k y l :
  files_of ((k, y) :: l) = if is_file y then k :: files_of l else files_of l.
Proof.
  unfold files_of. rewrite filter_cons.
  destruct y; [rewrite decide_True by done|rewrite decide_False by (cbn; auto)]; done.
Qed.

Lemma files_of_app_dir l c w kids : files_of (l ++ [(c, NDir w kids)]) = files_of l.
Proof.
  induction l as [|[k y] l IH]; [done|].
  rewrite <- app_comm_cons, !files_of_cons, IH. done.
Qed.

Lemma files_of_set_entry l c w kids w' kids' :
  entry c l = Some (NDir w kids) →
  files_of (set_entry c (NDir w' kids') l) = files_of l.
Proof.
  induction l as [|[m y] l IH]; cbn; [done|].
  destruct (decide (m = c)) as [->|Hmc]; intros H.
  - injection H as ->. by rewrite !files_of_cons.
  - by rewrite !files_of_cons, IH.
Qed.

Lemma files_of_remove_entry l m :
  files_of (remove_entry m l) = filter (λ f, f ≠ m) (files_of l).
Proof.
  unfold remove_entry. induction l as [|[k y] l IH]; [done|].
  rewrite filter_cons, files_of_cons.
  destruct (decide ((k, y).1 ≠ m)) as [Hk|Hk]; cbn in Hk.
  - rewrite files_of_cons. destruct (is_file y); [|done].
    by rewrite filter_cons, decide_True, IH.
  - destruct (is_file y); [|done].
    by rewrite filter_cons, decide_False.
Qed.

Lemma files_of_entry l n data : entry n l = Some (NFile data) → n ∈ files_of l.
Proof.
  induction l as [|[k y] l IH]; cbn; [done|].
  rewrite files_of_cons.
  destruct (decide (k = n)) as [->|Hkn]; intros H.
  - injection H as ->. cbn. left.
  - destruct (is_file y); [right|]; auto.
Qed.

End entries.

(** ** The collision loop *)

Section dedup.
Implicit Types (d : dir) (folder st ex name t : string) (c n steps : nat).

Lemma file_exists_occupied folder name d :
  file_exists folder name d = Val (occupied folder d name) d.
Proof.
  unfold file_exists, occupied, folder_kids, mbind, M_bind, get_dir, mret, M_ret.
  destruct (entry folder (entries d)) as [[?|w kids]|]; try done.
  all: f_equal; symmetry; apply bool_decide_eq_false.
  all: rewrite lookup_empty; by intros [].
Qed.

Lemma dedup_loop_S steps folder st ex t c d :
  dedup_loop (S steps) folder st ex t c d =
    if occupied folder d t
    then dedup_loop steps folder st ex (candidate st ex c) (S c) d
    else Val t d.
Proof.
  cbn [dedup_loop]. unfold mbind, M_bind at 1.
  rewrite file_exists_occupied. by destruct (occupied folder d t).
Qed.

(** The loop raises nothing and leaves the directory as it is; the name
    it ends with is free, and it is the name it started with or the first
    free candidate from [c] on. *)
Lemma dedup_loop_Val steps folder st ex t0 c d t d' :
  dedup_loop steps folder st ex t0 c d = Val t d' →
  d' = d ∧ occupied folder d t = false ∧
  ((t = t0) ∨
   (occupied folder d t0 = true ∧
    ∃ n, c ≤ n ∧ t = candidate st ex n ∧
         ∀ j, c ≤ j < n → occupied folder d (candidate st ex j) = true)).
Proof.
  revert t0 c. induction steps as [|steps IH]; intros t0 c; [done|].
  rewrite dedup_loop_S. destruct (occupied folder d t0) eqn:Hocc.
  - intros H. apply IH in H as (-> & Hfree & [->|(Hc & n & Hn & -> & Hbelow)]).
    + split_and!; [done..|]. right. split; [done|].
      exists c. split_and!; [lia|done|]. intros j ?. lia.
    + split_and!; [done..|]. right. split; [done|].
      exists n. split_and!; [lia|done|]. intros j Hj.
      destruct (decide (j = c)) as [->|]; [done|]. apply Hbelow. lia.
  - intros [= -> ->]. auto.
Qed.

Lemma dedup_loop_no_exc steps folder st ex t0 c d e d' :
  dedup_loop steps folder st ex t0 c d ≠ Exc e d'.
Proof.
  revert t0 c. induction steps as [|steps IH]; intros t0 c; [done|].
  rewrite dedup_loop_S. destruct (occupied folder d t0); [apply IH|done].
Qed.

(** A loop that used up its rounds found every name it tried taken. *)
Lemma dedup_loop_Div steps folder st ex t0 c d :
  dedup_loop steps folder st ex t0 c d = Div →
  ∀ j, S j < steps → occupied folder d (candidate st ex (c + j)) = true.
Proof.
  revert t0 c. induction steps as [|steps IH]; intros t0 c H j Hj; [lia|].
  rewrite dedup_loop_S in H. destruct (occupied folder d t0); [|done].
  destruct j as [|j].
  - destruct steps as [|steps]; [lia|].
    rewrite dedup_loop_S in H. rewrite Nat.add_0_r.
    by destruct (occupied folder d (candidate st ex c)).
  - replace (c + S j) with (S c + j) by lia. eapply IH; [done|lia].
Qed.

(** Only finitely many names are taken: [size + 2] rounds are enough. *)
Lemma dedup_loop_enough steps folder st ex t0 c d :
  S (S (folder_size folder d)) ≤ steps →
  dedup_loop steps folder st ex t0 c d ≠ Div.
Proof.
  intros Hsteps HDiv.
  pose proof (dedup_loop_Div _ _ _ _ _ _ _ HDiv) as Hall.
  set (kids := folder_kids folder d) in *.
  set (cands := (λ j, candidate st ex (c + j)) <$> seq 0 (S (size kids))).
  assert (NoDup cands) as Hnodup.
  { apply NoDup_fmap_2; [|apply NoDup_seq].
    intros j1 j2 Hj. apply candidate_inj in Hj. lia. }
  assert (list_to_set cands ⊆ dom kids) as Hsub.
  { intros x [j [-> Hj]]%elem_of_list_to_set%list_elem_of_fmap.
    apply elem_of_seq in Hj.
    assert (occupied folder d (candidate st ex (c + j)) = true) as Hocc.
    { apply Hall. unfold folder_size in Hsteps. fold kids in Hsteps. lia. }
    apply bool_decide_eq_true in Hocc. by apply elem_of_dom. }
  apply subseteq_size in Hsub.
  rewrite size_list_to_set in Hsub by done.
  rewrite size_dom in Hsub. unfold cands in Hsub.
  rewrite length_fmap, length_seq in Hsub. lia.
Qed.


Lemma dedup_loop_total steps folder st ex t0 c d :
  S (S (folder_size folder d)) ≤ steps →
  ∃ t, dedup_loop steps folder st ex t0 c d = Val t d.
Proof.
  intros Hsteps.
  destruct (dedup_loop steps folder st ex t0 c d) as [t d'|e d'|] eqn:H.
  - apply dedup_loop_Val in H as H'. destruct H' as [-> _]. eauto.
  - by apply dedup_loop_no_exc in H.
  - by apply dedup_loop_enough in H.
Qed.

Lemma dedup_unfold folder name d :
  dedup folder name d =
    dedup_loop (S (S (folder_size folder d))) folder
      (PurePath.stem name) (PurePath.suffix name) name 1 d.
Proof. reflexivity. Qed.

End dedup.

(** ** The monad and the file-system calls *)

Section monad.
Context {A B : Type}.
Implicit Types (m : M A) (f : A → M B) (d : dir).

Lemma bind_Val m f d b d' :
  (m ≫= f) d = Val b d' → ∃ a d1, m d = Val a d1 ∧ f a d1 = Val b d'.
Proof. unfold mbind, M_bind. destruct (m d); naive_solver. Qed.

Lemma bind_Exc m f d e d' :
  (m ≫= f) d = Exc e d' →
  m d = Exc e d' ∨ ∃ a d1, m d = Val a d1 ∧ f a d1 = Exc e d'.
Proof. unfold mbind, M_bind. destruct (m d); naive_solver. Qed.

Lemma bind_Div m f d :
  (m ≫= f) d = Div → m d = Div ∨ ∃ a d1, m d = Val a d1 ∧ f a d1 = Div.
Proof. unfold mbind, M_bind. destruct (m d); naive_solver. Qed.
End monad.

Section calls.
Implicit Types (d : dir) (folder name src : string).

Lemma folder_exists_Val folder d :
  folder_exists folder d = Val (bool_decide (is_Some (entry folder (entries d)))) d.
Proof. reflexivity. Qed.

Lemma mkdir_absent src folder d :
  entry folder (entries d) = None →
  mkdir src folder d =
    if dir_writable d then Val () (after_mkdir folder d)
    else Exc (EACCES (joinpath src folder)) d.
Proof.
  intros H. unfold mkdir, after_mkdir, mbind, M_bind, get_dir. rewrite H.
  by destruct (dir_writable d).
Qed.

Lemma entry_after_mkdir folder d c :
  entry c (entries (after_mkdir folder d)) =
    match entry c (entries d) with
    | Some x => Some x
    | None => if decide (folder = c) then Some (NDir true ∅) else None
    end.
Proof.
  unfold after_mkdir. destruct (entry folder (entries d)) as [x|] eqn:H; cbn.
  - destruct (entry c (entries d)) eqn:Hc; [done|].
    destruct (decide (folder = c)) as [->|]; [congruence|done].
  - apply entry_app.
Qed.

Lemma folder_kids_after_mkdir folder d c :
  folder_kids c (after_mkdir folder d) = folder_kids c d.
Proof.
  unfold folder_kids. rewrite entry_after_mkdir.
  destruct (entry c (entries d)) as [x|]; [done|].
  by destruct (decide (folder = c)).
Qed.

Lemma files_of_after_mkdir folder d :
  files_of (entries (after_mkdir folder d)) = files_of (entries d).
Proof.
  unfold after_mkdir. destruct (entry folder (entries d)); [done|].
  cbn. apply files_of_app_dir.
Qed.

Lemma dedup_Val folder name d t d' :
  dedup folder name d = Val t d' →
  d' = d ∧ first_free name (folder_kids folder d) t.
Proof.
  rewrite dedup_unfold. intros H.
  apply dedup_loop_Val in H as (-> & Hfree & Hcase). split; [done|].
  assert (∀ x, occupied folder d x = true ↔ is_Some (folder_kids folder d !! x)) as Hocc.
  { intros x. unfold occupied. apply bool_decide_eq_true. }
  split.
  - apply eq_None_not_Some. rewrite <- Hocc. by rewrite Hfree.
  - destruct Hcase as [->|(H0 & n & Hn & -> & Hbelow)]; [by left|right].
    split; [by apply Hocc|]. exists n. split_and!; [done..|].
    intros j Hj. apply Hocc, Hbelow. lia.
Qed.

Lemma dedup_total folder name d : ∃ t, dedup folder name d = Val t d.
Proof. rewrite dedup_unfold. by apply dedup_loop_total. Qed.

Lemma shutil_move_Val src name folder new_name d u d' :
  folder_kids folder d !! new_name = None →
  shutil_move src name folder new_name d = Val u d' →
  ∃ data,
    entry name (entries d) = Some (NFile data) ∧
    entry folder (entries d) = Some (NDir true (folder_kids folder d)) ∧
    dir_writable d = true ∧
    d' = Dir true (set_entry folder
                     (NDir true (<[new_name := LFile data]> (folder_kids folder d)))
                     (remove_entry name (entries d))).
Proof.
  unfold shutil_move, folder_kids, mbind, M_bind, get_dir, raise, put_dir.
  destruct (entry name (entries d)) as [[data|]|]; [|done..].
  destruct (entry folder (entries d)) as [[|w kids]|]; [done| |done].
  intros ->. destruct w; [|done]. cbn [negb].
  destruct (dir_writable d) eqn:Hw; [|done].
  intros [= <-]. eauto.
Qed.

Lemma shutil_move_Exc src name folder new_name d e d' :
  folder_kids folder d !! new_name = None →
  shutil_move src name folder new_name d = Exc e d' →
  d' = d ∨
  ∃ data,
    entry name (entries d) = Some (NFile data) ∧
    entry folder (entries d) = Some (NDir true (folder_kids folder d)) ∧
    dir_writable d = false ∧ e = EACCES (joinpath src name) ∧
    d' = Dir false (set_entry folder
                     (NDir true (<[new_name := LFile data]> (folder_kids folder d)))
                     (entries d)).
Proof.
  unfold shutil_move, folder_kids, mbind, M_bind, get_dir, raise, put_dir.
  destruct (entry name (entries d)) as [[data|]|]; [|naive_solver..].
  destruct (entry folder (entries d)) as [[|w kids]|]; [naive_solver| |naive_solver].
  intros ->. destruct w; [|naive_solver]. cbn [negb].
  destruct (dir_writable d) eqn:Hw; [done|].
  intros [= <- <-]. right. eauto 10.
Qed.

Lemma shutil_move_no_Div src name folder new_name d :
  shutil_move src name folder new_name d ≠ Div.
Proof.
  unfold shutil_move, mbind, M_bind, get_dir, raise, put_dir.
  repeat case_match; done.
Qed.
End calls.

(** ** One round of the loop *)

Section step.
Implicit Types (d : dir) (folder name src : string) (a : acc).

Lemma process_file_Val src a name d a' d' :
  process_file src a name d = Val a' d' →
  ∃ data new_name,
    entry name (entries d) = Some (NFile data) ∧
    first_free name (folder_kids (target_folder_of name) d) new_name ∧
    (entry (target_folder_of name) (entries d) = None ∨
     entry (target_folder_of name) (entries d)
       = Some (NDir true (folder_kids (target_folder_of name) d))) ∧
    a' = Acc (S (organized_count a))
           (if bool_decide (entry (target_folder_of name) (entries d) = None)
            then {[target_folder_of name]} ∪ created_folders a
            else created_folders a)
           (file_moves a ++ [Move name "Root Directory" (target_folder_of name) new_name]) ∧
    dir_writable d = true ∧
    d' = Dir true
           (set_entry (target_folder_of name)
              (NDir true (<[new_name := LFile data]> (folder_kids (target_folder_of name) d)))
              (remove_entry name (entries (after_mkdir (target_folder_of name) d)))).
Proof.
  unfold process_file. cbv zeta. set (folder := target_folder_of name).
  intros H.
  apply bind_Val in H as (present & d0 & Hpres & H).
  rewrite folder_exists_Val in Hpres. injection Hpres as <- <-.
  apply bind_Val in H as (created & d1 & Hcreated & H).
  apply bind_Val in H as (new_name & d2 & Hdedup & H).
  apply dedup_Val in Hdedup as [-> Hfree].
  apply bind_Val in H as ([] & d3 & Hmove & H).
  injection H as <- <-.
  assert (d1 = after_mkdir folder d ∧
          created = (if bool_decide (entry folder (entries d) = None)
                     then {[folder]} ∪ created_folders a else created_folders a) ∧
          (entry folder (entries d) = None → dir_writable d = true))
    as (-> & -> & Hw).
  { destruct (entry folder (entries d)) as [x|] eqn:He.
    - rewrite bool_decide_eq_true_2 in Hcreated by eauto. cbn in Hcreated.
      injection Hcreated as <- <-. unfold after_mkdir. rewrite He.
      by rewrite bool_decide_eq_false_2.
    - rewrite bool_decide_eq_false_2 in Hcreated by (by intros []). cbn [negb] in Hcreated.
      apply bind_Val in Hcreated as ([] & d4 & Hmk & Hret).
      injection Hret as <- <-. rewrite mkdir_absent in Hmk by done.
      destruct (dir_writable d); [|done]. injection Hmk as <-.
      by rewrite bool_decide_eq_true_2. }
  rewrite folder_kids_after_mkdir in Hfree.
  apply shutil_move_Val in Hmove as (data & Hname & Hfolder & Hwr & ->);
    [|rewrite folder_kids_after_mkdir; apply Hfree].
  rewrite folder_kids_after_mkdir in *.
  rewrite entry_after_mkdir in Hname, Hfolder.
  exists data, new_name. split_and!; try done.
  - destruct (entry name (entries d)); [done|]. by destruct (decide (folder = name)).
  - destruct (entry folder (entries d)); auto.
  - destruct (entry folder (entries d)) eqn:He; [|by apply Hw].
    unfold after_mkdir in Hwr. by rewrite He in Hwr.
Qed.

End step.

Section step_facts.
Implicit Types (d : dir) (folder name src : string) (a : acc).

(** What a round that ends well has done, entry by entry. *)
Lemma process_file_done src a name d a' d' :
  process_file src a name d = Val a' d' →
  ∃ data new_name,
    entry name (entries d) = Some (NFile data) ∧
    first_free name (folder_kids (target_folder_of name) d) new_name ∧
    (entry (target_folder_of name) (entries d) = None ∨
     entry (target_folder_of name) (entries d)
       = Some (NDir true (folder_kids (target_folder_of name) d))) ∧
    a' = Acc (S (organized_count a))
           (if bool_decide (entry (target_folder_of name) (entries d) = None)
            then {[target_folder_of name]} ∪ created_folders a
            else created_folders a)
           (file_moves a ++ [Move name "Root Directory" (target_folder_of name) new_name]) ∧
    dir_writable d = true ∧ dir_writable d' = true ∧
    files_of (entries d') = filter (λ f, f ≠ name) (files_of (entries d)) ∧
    ∀ c, entry c (entries d') =
           if decide (c = target_folder_of name)
           then Some (NDir true (<[new_name := LFile data]>
                                   (folder_kids (target_folder_of name) d)))
           else if decide (c = name) then None
           else entry c (entries d).
Proof.
  intros H. apply process_file_Val in H
    as (data & new_name & Hname & Hfree & Hfolder & -> & Hw & ->).
  set (folder := target_folder_of name) in *.
  assert (folder ≠ name) as Hne.
  { intros Heq. rewrite Heq in Hfolder. destruct Hfolder; congruence. }
  assert (∃ w kids, entry folder (entries (after_mkdir folder d)) = Some (NDir w kids))
    as (w1 & kids1 & Hd1).
  { rewrite entry_after_mkdir. destruct Hfolder as [->| ->]; [|eauto].
    rewrite decide_True by done. eauto. }
  exists data, new_name. split_and!; try done.
  - cbn [entries]. erewrite files_of_set_entry.
    + by rewrite files_of_remove_entry, files_of_after_mkdir.
    + rewrite entry_remove_entry, decide_False by done. apply Hd1.
  - intros c. cbn [entries].
    rewrite entry_set_entry, entry_remove_entry, entry_after_mkdir.
    destruct (decide (c = folder)) as [->|Hc].
    + rewrite decide_True by done. rewrite decide_False by done.
      rewrite entry_after_mkdir in Hd1. by rewrite Hd1.
    + rewrite decide_False by done.
      destruct (decide (c = name)) as [->|Hcn].
      * by rewrite decide_True.
      * rewrite decide_False by done.
        destruct (entry c (entries d)); [done|]. by rewrite decide_False.
Qed.

(** What a round that raises leaves behind. *)
Lemma process_file_raised src a name d e d' :
  process_file src a name d = Exc e d' →
  dir_writable d' = dir_writable d ∧
  files_of (entries d') = files_of (entries d) ∧
  ((∀ c, entry c (entries d') = entry c (entries (after_mkdir (target_folder_of name) d))) ∨
   (∀ c, entry c (entries d') = entry c (entries d)) ∨
   ∃ data new_name,
     folder_kids (target_folder_of name) d !! new_name = None ∧
     entry (target_folder_of name) (entries d)
       = Some (NDir true (folder_kids (target_folder_of name) d)) ∧
     ∀ c, entry c (entries d') =
            if decide (c = target_folder_of name)
            then Some (NDir true (<[new_name := LFile data]>
                                    (folder_kids (target_folder_of name) d)))
            else entry c (entries d)).
Proof.
  unfold process_file. cbv zeta. set (folder := target_folder_of name).
  intros H.
  apply bind_Exc in H as [H|(present & d0 & Hpres & H)]; [done|].
  rewrite folder_exists_Val in Hpres. injection Hpres as <- <-.
  apply bind_Exc in H as [H|(created & d1 & Hcreated & H)].
  { (* mkdir raised *)
    destruct (entry folder (entries d)) as [x|] eqn:He.
    - rewrite bool_decide_eq_true_2 in H by eauto. done.
    - rewrite bool_decide_eq_false_2 in H by (by intros []). cbn [negb] in H.
      apply bind_Exc in H as [H|(? & ? & _ & H)]; [|done].
      rewrite mkdir_absent in H by done.
      destruct (dir_writable d) eqn:Hwd; [done|]. injection H as <- <-.
      split_and!; [done..|]. right. by left. }
  assert (d1 = after_mkdir folder d ∧
          (entry folder (entries d) = None → dir_writable d = true)) as [-> Hmk].
  { destruct (entry folder (entries d)) as [x|] eqn:He.
    - rewrite bool_decide_eq_true_2 in Hcreated by eauto. cbn in Hcreated.
      injection Hcreated as <- <-. unfold after_mkdir. by rewrite He.
    - rewrite bool_decide_eq_false_2 in Hcreated by (by intros []).
      cbn [negb] in Hcreated.
      apply bind_Val in Hcreated as ([] & d4 & Hmk & Hret).
      injection Hret as <- <-. rewrite mkdir_absent in Hmk by done.
      destruct (dir_writable d); [|done]. by injection Hmk as <-. }
  assert (dir_writable (after_mkdir folder d) = dir_writable d) as Hwd.
  { unfold after_mkdir. by destruct (entry folder (entries d)). }
  apply bind_Exc in H as [H|(new_name & d2 & Hdedup & H)].
  { by apply dedup_loop_no_exc in H. }
  apply dedup_Val in Hdedup as [-> [Hfree _]].
  apply bind_Exc in H as [H|(? & ? & _ & H)]; [|done].
  apply shutil_move_Exc in H as [->|(data & Hname & Hfolder & Hw & -> & ->)]; [| |done].
  { rewrite files_of_after_mkdir. split_and!; [done..|]. by left. }
  rewrite folder_kids_after_mkdir in *.
  assert (after_mkdir folder d = d) as Hsame.
  { unfold after_mkdir. destruct (entry folder (entries d)) eqn:He; [done|].
    rewrite Hmk in Hwd by done. congruence. }
  rewrite Hsame in *. cbn [entries dir_writable].
  split_and!; [done| |].
  - by erewrite files_of_set_entry.
  - right. right. exists data, new_name. split_and!; [done..|].
    intros c. rewrite entry_set_entry.
    destruct (decide (c = folder)) as [->|Hc].
    + by rewrite decide_True, Hfolder.
    + by rewrite decide_False.
Qed.

Lemma process_file_no_Div src a name d : process_file src a name d ≠ Div.
Proof.
  unfold process_file. cbv zeta. set (folder := target_folder_of name).
  intros H.
  apply bind_Div in H as [H|(present & d0 & _ & H)]; [done|].
  apply bind_Div in H as [H|(created & d1 & _ & H)].
  { destruct (negb present); [|done].
    apply bind_Div in H as [H|(? & ? & _ & H)]; [|done].
    unfold mkdir, mbind, M_bind, get_dir, raise, put_dir in H.
    repeat case_match; done. }
  apply bind_Div in H as [H|(new_name & d2 & _ & H)].
  { destruct (dedup_total folder name d1) as [t Ht]. congruence. }
  apply bind_Div in H as [H|(? & ? & _ & H)]; [|done].
  by apply shutil_move_no_Div in H.
Qed.

End step_facts.

(** ** What rounds preserve *)

Section preserved.
Implicit Types (d : dir) (folder name src : string) (a : acc).

Lemma keeps_folders_refl d : keeps_folders d d.
Proof. intros c w kids H. eauto. Qed.

Lemma keeps_folders_trans d1 d2 d3 :
  keeps_folders d1 d2 → keeps_folders d2 d3 → keeps_folders d1 d3.
Proof.
  intros H12 H23 c w kids H.
  apply H12 in H as (kids2 & H & Hsub). apply H23 in H as (kids3 & H & Hsub').
  exists kids3. split; [done|]. by etrans.
Qed.

Lemma keeps_folders_holds d d' folder new_name data :
  keeps_folders d d' → holds d folder new_name data → holds d' folder new_name data.
Proof.
  intros Hk (w & kids & He & Hl). apply Hk in He as (kids' & He & Hsub).
  exists w, kids'. split; [done|]. by eapply lookup_weaken.
Qed.

Lemma keeps_folders_ext d d' :
  (∀ c, entry c (entries d') = entry c (entries d)) → keeps_folders d d'.
Proof. intros H c w kids Hc. rewrite H. eauto. Qed.

Lemma after_mkdir_keeps_folders folder d : keeps_folders d (after_mkdir folder d).
Proof. intros c w kids Hc. rewrite entry_after_mkdir, Hc. eauto. Qed.

Lemma step_keeps_folders src a name d a' d' :
  process_file src a name d = Val a' d' → keeps_folders d d'.
Proof.
  intros H. apply process_file_done in H
    as (data & new_name & Hname & [Hfree _] & Hfolder & _ & _ & _ & _ & He).
  intros c w kids Hc. rewrite He.
  destruct (decide (c = target_folder_of name)) as [->|Hne].
  - destruct Hfolder as [Hf|Hf]; [congruence|].
    rewrite Hf in Hc. injection Hc as <- <-.
    eexists. split; [done|]. by apply insert_subseteq.
  - rewrite decide_False by congruence. eauto.
Qed.

Lemma step_keeps_files src a name d a' d' :
  process_file src a name d = Val a' d' → keeps_files [name] d d'.
Proof.
  intros H. apply process_file_done in H
    as (data & new_name & Hname & _ & Hfolder & _ & _ & _ & _ & He).
  intros r x Hr Hx. rewrite He.
  assert (r ≠ target_folder_of name) as Hrf.
  { intros Heq. rewrite Heq in Hx. destruct Hfolder as [Hf|Hf]; congruence. }
  rewrite decide_False by done.
  rewrite decide_False; [done|]. intros ->. apply Hr. left.
Qed.

Lemma step_no_new_files src a name d a' d' :
  process_file src a name d = Val a' d' → no_new_files d d'.
Proof.
  intros H. apply process_file_done in H
    as (data & new_name & Hname & _ & Hfolder & _ & _ & _ & _ & He).
  intros r x. rewrite He. repeat case_decide; done.
Qed.

Lemma step_is_folder src a name d a' d' c :
  process_file src a name d = Val a' d' →
  is_folder d' c = is_folder d c || bool_decide (c = target_folder_of name).
Proof.
  intros H. apply process_file_done in H
    as (data & new_name & Hname & _ & Hfolder & _ & _ & _ & _ & He).
  unfold is_folder. rewrite He.
  destruct (decide (c = target_folder_of name)) as [->|Hne].
  - rewrite bool_decide_eq_true_2 by done. by rewrite orb_true_r.
  - rewrite bool_decide_eq_false_2 by done. rewrite orb_false_r.
    destruct (decide (c = name)) as [->|]; [by rewrite Hname|done].
Qed.

Lemma step_sizes src a name d a' d' c :
  process_file src a name d = Val a' d' →
  size (folder_kids c d') =
    size (folder_kids c d) + (if decide (c = target_folder_of name) then 1 else 0).
Proof.
  intros H. apply process_file_done in H
    as (data & new_name & Hname & [Hfree _] & Hfolder & _ & _ & _ & _ & He).
  unfold folder_kids at 1. rewrite He.
  destruct (decide (c = target_folder_of name)) as [->|Hne].
  - rewrite map_size_insert_None by done. lia.
  - rewrite Nat.add_0_r.
    destruct (decide (c = name)) as [->|]; [|done].
    unfold folder_kids. by rewrite Hname.
Qed.

Lemma raised_keeps_folders src a name d e d' :
  process_file src a name d = Exc e d' → keeps_folders d d'.
Proof.
  intros H. apply process_file_raised in H
    as (_ & _ & [He|[He|(data & new_name & Hfree & Hfolder & He)]]).
  - eapply keeps_folders_trans; [apply after_mkdir_keeps_folders|].
    by apply keeps_folders_ext.
  - by apply keeps_folders_ext.
  - intros c w kids Hc. rewrite He.
    destruct (decide (c = target_folder_of name)) as [->|Hne]; [|eauto].
    rewrite Hfolder in Hc. injection Hc as <- <-.
    eexists. split; [done|]. by apply insert_subseteq.
Qed.

Lemma raised_keeps_files src a name d e d' :
  process_file src a name d = Exc e d' → keeps_files [] d d'.
Proof.
  intros H. apply process_file_raised in H
    as (_ & _ & [He|[He|(data & new_name & Hfree & Hfolder & He)]]);
    intros r x _ Hx; rewrite He.
  - by rewrite entry_after_mkdir, Hx.
  - done.
  - rewrite decide_False; [done|]. intros ->. congruence.
Qed.

Lemma raised_files_of src a name d e d' :
  process_file src a name d = Exc e d' →
  files_of (entries d') = files_of (entries d).
Proof. intros H. by apply process_file_raised in H as (_ & ? & _). Qed.

End preserved.

(** ** Runs of rounds *)

Lemma filter_all {A} (P : A → Prop) `{!∀ x, Decision (P x)} (l : list A) :
  (∀ x, x ∈ l → P x) → filter P l = l.
Proof.
  induction l as [|x l IH]; intros Hall; [done|].
  rewrite filter_cons_True by (apply Hall; left).
  f_equal. apply IH. intros y Hy. apply Hall. by right.
Qed.

Lemma filter_none {A} (P : A → Prop) `{!∀ x, Decision (P x)} (l : list A) :
  (∀ x, x ∈ l → ¬ P x) → filter P l = [].
Proof.
  induction l as [|x l IH]; intros Hall; [done|].
  rewrite filter_cons_False by (apply Hall; left).
  apply IH. intros y Hy. apply Hall. by right.
Qed.

Section runs.
Implicit Types (d : dir) (src : string) (a : acc) (done files : list string).

(** The loop never hangs; it completes as a run, or a run is followed by
    a round that raises. *)
Lemma process_files_run src files a d a' d' e :
  process_files src files a d = (a', d', e) →
  match e with
  | Completed => run src files a d a' d'
  | Aborted ex f =>
      ∃ done rest dm, files = done ++ f :: rest ∧ run src done a d a' dm ∧
                      process_file src a' f dm = Exc ex d'
  | Hung f => False
  end.
Proof.
  revert a d. induction files as [|f rest IH]; intros a d H; cbn in H.
  - injection H as <- <- <-. constructor.
  - destruct (process_file src a f d) as [a1 d1|ex d1|] eqn:Hstep.
    + apply IH in H. destruct e as [|ex f'|f']; [|..].
      * econstructor; eauto.
      * destruct H as (done & rest' & dm & -> & Hrun & Hex).
        exists (f :: done), rest', dm. split_and!; [done|econstructor; eauto|done].
      * done.
    + injection H as <- <- <-. exists [], rest, d. split_and!; [done|constructor|done].
    + by apply process_file_no_Div in Hstep.
Qed.

Lemma run_keeps_folders src done a d a' d' :
  run src done a d a' d' → keeps_folders d d'.
Proof.
  induction 1 as [|f rest a d a1 d1 a' d' Hstep _ IH]; [apply keeps_folders_refl|].
  eapply keeps_folders_trans; [by eapply step_keeps_folders|done].
Qed.

Lemma run_keeps_files src done a d a' d' :
  run src done a d a' d' → keeps_files done d d'.
Proof.
  induction 1 as [|f rest a d a1 d1 a' d' Hstep _ IH]; [by intros r x _ ?|].
  intros r x Hr Hx. apply not_elem_of_cons in Hr as [Hrf Hr]. apply IH; [done|].
  eapply step_keeps_files; [done| |done].
  by intros ?%list_elem_of_singleton.
Qed.

Lemma run_no_new_files src done a d a' d' :
  run src done a d a' d' → no_new_files d d'.
Proof.
  induction 1 as [|f rest a d a1 d1 a' d' Hstep _ IH]; [by intros r x ?|].
  intros r x Hx. eapply step_no_new_files; [done|]. by apply IH.
Qed.

Lemma run_files_of src done a d a' d' :
  run src done a d a' d' →
  files_of (entries d') = filter (λ f, f ∉ done) (files_of (entries d)).
Proof.
  induction 1 as [|f rest a d a1 d1 a' d' Hstep _ IH].
  - symmetry. apply filter_all. intros x _. apply not_elem_of_nil.
  - rewrite IH. apply process_file_done in Hstep
      as (_ & _ & _ & _ & _ & _ & _ & _ & -> & _).
    rewrite list_filter_filter. apply list_filter_iff. intros x. set_solver.
Qed.

(** The bookkeeping of a run: one record per file, in order, each naming
    the folder of its file and a place that holds the file's contents. *)
Lemma run_moves src done a d a' d' :
  run src done a d a' d' →
  ∃ new,
    file_moves a' = file_moves a ++ new ∧
    m_file <$> new = done ∧
    organized_count a' = organized_count a + length done ∧
    Forall (λ m, m_from m = "Root Directory" ∧
                 m_to m = target_folder_of (m_file m) ∧
                 ∃ data, entry (m_file m) (entries d) = Some (NFile data) ∧
                         holds d' (m_to m) (m_new_name m) data) new.
Proof.
  induction 1 as [a d|f rest a d a1 d1 a' d' Hstep Hrun IH].
  - exists []. rewrite app_nil_r. split_and!; [done|done|cbn; lia|constructor].
  - destruct IH as (new & Hmoves & Hfiles & Hcount & Hall).
    pose proof (step_no_new_files _ _ _ _ _ _ Hstep) as Hback.
    pose proof (run_keeps_folders _ _ _ _ _ _ Hrun) as Hkeep.
    apply process_file_done in Hstep
      as (data & new_name & Hname & _ & _ & -> & _ & _ & _ & He).
    cbn in Hmoves, Hcount.
    exists (Move f "Root Directory" (target_folder_of f) new_name :: new).
    split_and!.
    + rewrite Hmoves, <- app_assoc. done.
    + cbn. by rewrite Hfiles.
    + cbn. lia.
    + constructor.
      * cbn. split_and!; [done..|]. exists data. split; [done|].
        eapply keeps_folders_holds; [done|].
        eexists _, _. rewrite He, decide_True by done. split; [done|].
        apply lookup_insert_eq.
      * eapply Forall_impl; [done|]. cbn.
        intros m (? & ? & x & Hx & Hholds). split_and!; [done..|].
        exists x. split; [|done]. by apply Hback.
Qed.

(** The folders recorded as created are the folders of processed files
    that were not folders when the run began. *)
Lemma run_created src done a d a' d' :
  run src done a d a' d' →
  created_folders a' =
    created_folders a ∪
    list_to_set (filter (λ c, is_folder d c = false) (target_folder_of <$> done)).
Proof.
  induction 1 as [a d|f rest a d a1 d1 a' d' Hstep Hrun IH].
  - cbn. set_solver.
  - rewrite IH. clear IH Hrun.
    pose proof (λ c, step_is_folder _ _ _ _ _ _ c Hstep) as Hfold.
    apply process_file_done in Hstep
      as (data & new_name & Hname & _ & Hfolder & -> & _ & _ & _ & He).
    cbn [created_folders]. rewrite fmap_cons, filter_cons.
    assert (list_to_set (filter (λ c, is_folder d1 c = false) (target_folder_of <$> rest))
            =@{gset string}
            list_to_set (filter (λ c, is_folder d c = false) (target_folder_of <$> rest))
              ∖ {[target_folder_of f]}) as ->.
    { apply set_eq. intros c.
      rewrite elem_of_difference, !elem_of_list_to_set, !list_elem_of_filter.
      rewrite Hfold, orb_false_iff, bool_decide_eq_false. set_solver. }
    destruct Hfolder as [Hf|Hf].
    + rewrite bool_decide_eq_true_2 by done.
      rewrite decide_True by (unfold is_folder; by rewrite Hf).
      rewrite list_to_set_cons. apply set_eq. intros c.
      destruct (decide (c = target_folder_of f)); set_solver.
    + rewrite bool_decide_eq_false_2 by congruence.
      rewrite decide_False by (unfold is_folder; by rewrite Hf).
      apply set_eq. intros c.
      destruct (decide (c = target_folder_of f)) as [->|]; [|set_solver].
      rewrite !elem_of_union, elem_of_difference, !elem_of_list_to_set,
        !list_elem_of_filter.
      unfold is_folder at 2. rewrite Hf. set_solver.
Qed.

(** Each folder gains one entry per file the run moves into it. *)
Lemma run_sizes src done a d a' d' c :
  run src done a d a' d' →
  size (folder_kids c d') =
    size (folder_kids c d) + length (filter (λ f, target_folder_of f = c) done).
Proof.
  induction 1 as [a d|f rest a d a1 d1 a' d' Hstep Hrun IH]; [cbn; lia|].
  rewrite IH, (step_sizes _ _ _ _ _ _ c Hstep), filter_cons.
  destruct (decide (c = target_folder_of f)) as [->|Hne].
  - rewrite decide_True by done. cbn. lia.
  - rewrite decide_False by done. lia.
Qed.

End runs.

(** ** Classification *)

Section classification.
Implicit Types (table : list (string * list string)) (ext name : string).

Lemma mem_true ext exts : Py.mem ext exts = true ↔ ext ∈ exts.
Proof. unfold Py.mem. apply bool_decide_eq_true. Qed.

Lemma mem_false ext exts : Py.mem ext exts = false ↔ ext ∉ exts.
Proof. unfold Py.mem. apply bool_decide_eq_false. Qed.

(** The loop stops at the first category that lists the extension. *)
Lemma category_loop_first table ext :
  (∃ pre c exts post,
      table = pre ++ (c, exts) :: post ∧ ext ∈ exts ∧
      Forall (λ p, ext ∉ p.2) pre ∧ category_loop table ext = Some c) ∨
  (Forall (λ p, ext ∉ p.2) table ∧ category_loop table ext = None).
Proof.
  induction table as [|[c exts] table IH]; cbn [category_loop].
  - right. by split.
  - destruct (Py.mem ext exts) eqn:Hmem.
    + left. exists [], c, exts, table. apply mem_true in Hmem. by split_and!.
    + apply mem_false in Hmem.
      destruct IH as [(pre & c' & exts' & post & -> & Hin & Hpre & Hres)|[Hall Hres]].
      * left. exists ((c, exts) :: pre), c', exts', post.
        split_and!; [done|done| |done]. by constructor.
      * right. split; [|done]. by constructor.
Qed.

Lemma target_folder_in_first table name :
  Forall (λ p, p.1 ≠ "") table →
  let ext := Py.lower (PurePath.suffix name) in
  (∃ pre c exts post,
      table = pre ++ (c, exts) :: post ∧ ext ∈ exts ∧
      Forall (λ p, ext ∉ p.2) pre ∧ target_folder_in table name = c) ∨
  (Forall (λ p, ext ∉ p.2) table ∧ target_folder_in table name = "Other Files").
Proof.
  intros Hnames ext. unfold target_folder_in. fold ext.
  destruct (category_loop_first table ext)
    as [(pre & c & exts & post & -> & Hin & Hpre & ->)|[Hall ->]].
  - left. exists pre, c, exts, post. split_and!; [done..|].
    apply Forall_app in Hnames as [_ Hc]. apply Forall_cons in Hc as [Hc _].
    cbn in Hc. by destruct c.
  - by right.
Qed.

Lemma file_categories_named : Forall (λ p, p.1 ≠ "") file_categories.
Proof. unfold file_categories. repeat constructor; done. Qed.

Lemma lower_nil : Py.lower "" = "".
Proof. reflexivity. Qed.

Lemma target_folder_no_suffix name :
  PurePath.suffix name = "" → target_folder_of name = "Other Files".
Proof.
  intros H. unfold target_folder_of, target_folder_in. by rewrite H.
Qed.

End classification.



(** ** Names without an extension *)

Section no_extension.

Lemma rfind_bounds c s : (-1 ≤ Py.rfind c s < Py.len s)%Z.
Proof.
  unfold Py.len. induction s as [|a s IH]; cbn [Py.rfind String.length]; [lia|].
  destruct (0 <=? Py.rfind c s)%Z eqn:Hi.
  - apply Z.leb_le in Hi. lia.
  - destruct (Ascii.eqb a c); lia.
Qed.

(** The last dot, when there is one, is a dot, and no dot follows it. *)
Lemma rfind_absent c s :
  Py.rfind c s = (-1)%Z ↔ ∀ i, String.get i s ≠ Some c.
Proof.
  induction s as [|a s IH]; cbn [Py.rfind].
  - split; [|done]. by intros _ [|i].
  - pose proof (rfind_bounds c s) as Hb.
    destruct (0 <=? Py.rfind c s)%Z eqn:Hi.
    + apply Z.leb_le in Hi. split; [lia|]. intros Hall. exfalso.
      assert (Py.rfind c s = (-1)%Z) by (apply IH; intros i; apply (Hall (S i))).
      lia.
    + apply Z.leb_gt in Hi. assert (Py.rfind c s = (-1)%Z) as Hs by lia.
      destruct (Ascii.eqb_spec a c) as [->|Hne].
      * split; [lia|]. intros Hall. by specialize (Hall 0).
      * split; [|done]. intros _ [|i]; cbn.
        -- congruence.
        -- by apply IH.
Qed.

Lemma suffix_no_dot name : Py.rfind "." name = (-1)%Z → PurePath.suffix name = "".
Proof. unfold PurePath.suffix. by intros ->. Qed.

Lemma suffix_leading_dot name : Py.rfind "." name = 0%Z → PurePath.suffix name = "".
Proof. unfold PurePath.suffix. by intros ->. Qed.

Lemma suffix_trailing_dot name :
  Py.rfind "." name = (Py.len name - 1)%Z → PurePath.suffix name = "".
Proof.
  unfold PurePath.suffix. intros ->.
  by rewrite Z.ltb_irrefl, andb_false_r.
Qed.

(** A suffix, when there is one, starts with a dot and is not the whole
    name: it is empty exactly in the three cases above. *)
Lemma suffix_empty_iff name :
  PurePath.suffix name = "" ↔
  Py.rfind "." name = (-1)%Z ∨ Py.rfind "." name = 0%Z ∨
  Py.rfind "." name = (Py.len name - 1)%Z.
Proof.
  split.
  - unfold PurePath.suffix. pose proof (rfind_bounds "." name) as Hb.
    destruct (0 <? Py.rfind "." name)%Z eqn:H0; [|apply Z.ltb_ge in H0; lia].
    destruct (Py.rfind "." name <? Py.len name - 1)%Z eqn:H1;
      [|apply Z.ltb_ge in H1; lia].
    cbn [andb]. apply Z.ltb_lt in H0, H1. intros Hdrop.
    apply (f_equal String.length) in Hdrop. cbn in Hdrop.
    assert (∀ n s, String.length (Py.drop n s) = String.length s - n) as Hlen.
    { clear. intros n. induction n as [|n IH]; intros [|a s]; cbn; first [done|lia]. }
    rewrite Hlen in Hdrop. unfold Py.len in *. lia.
  - intros [H|[H|H]];
      [by apply suffix_no_dot|by apply suffix_leading_dot|by apply suffix_trailing_dot].
Qed.

End no_extension.

(** C10. A file whose name has an empty suffix (no dot at all, a leading
    dot only as in [".bashrc"], or only a final dot) is assigned
    ["Other Files"], and a round that moves it puts its contents into the
    ["Other Files"] folder and records that folder. *)
Theorem no_extension_other_files :
  (∀ name, PurePath.suffix name = "" ↔
           Py.rfind "." name = (-1)%Z ∨ Py.rfind "." name = 0%Z ∨
           Py.rfind "." name = (Py.len name - 1)%Z) ∧
  PurePath.suffix ".bashrc" = "" ∧
  Forall (λ p, "" ∉ p.2) file_categories ∧
  (∀ name, PurePath.suffix name = "" → target_folder_of name = "Other Files") ∧
  (∀ src a name d a' d',
     PurePath.suffix name = "" →
     process_file src a name d = Val a' d' →
     ∃ data new_name,
       entry name (entries d) = Some (NFile data) ∧
       holds d' "Other Files" new_name data ∧
       file_moves a' = file_moves a ++ [Move name "Root Directory" "Other Files" new_name]).
Proof.
  split_and!.
  - apply suffix_empty_iff.
  - reflexivity.
  - apply (bool_decide_unpack _). by vm_compute.
  - apply target_folder_no_suffix.
  - intros src a name d a' d' Hsuf Hstep.
    apply target_folder_no_suffix in Hsuf.
    apply process_file_done in Hstep
      as (data & new_name & Hname & _ & _ & -> & _ & _ & _ & He).
    rewrite Hsuf in *. exists data, new_name. split_and!; [done| |done].
    eexists _, _. rewrite He, decide_True by done. split; [done|].
    apply lookup_insert_eq.
Qed.

Lemma no_extension_other_files_witness :
  PurePath.suffix ".bashrc" = "" ∧
  process_file "docs" empty_acc ".bashrc" Sample.dotfiles
    = Val Sample.bashrc_round.1 Sample.bashrc_round.2 ∧
  ∃ data new_name,
    entry ".bashrc" (entries Sample.dotfiles) = Some (NFile data) ∧
    holds Sample.bashrc_round.2 "Other Files" new_name data ∧
    file_moves Sample.bashrc_round.1
      = [Move ".bashrc" "Root Directory" "Other Files" new_name].
Proof.
  split_and!; [reflexivity|vm_compute; reflexivity|].
  apply (proj2 (proj2 (proj2 (proj2 no_extension_other_files)))
           "docs" empty_acc ".bashrc" Sample.dotfiles
           Sample.bashrc_round.1 Sample.bashrc_round.2);
    [reflexivity|vm_compute; reflexivity].
Defined.

(** ** The function as a whole *)

Section whole.
Implicit Types (d : dir) (src : string) (w : fsobj).

Lemma organize_cases src d :
  (regular_files d = [] ∧
   organize src d = Val (msg_no_files src) (Directory d)) ∨
  (regular_files d ≠ [] ∧
   ∃ a' d',
     (process_files src (regular_files d) empty_acc d = (a', d', Completed) ∧
      organize src d = Val (summary src (regular_files d) a') (Directory d')) ∨
     (∃ e f, process_files src (regular_files d) empty_acc d = (a', d', Aborted e f) ∧
             organize src d = Exc e (Directory d'))).
Proof.
  unfold organize. cbv zeta.
  destruct (decide (regular_files d = [])) as [Hnil|Hnil].
  - left. by rewrite bool_decide_eq_true_2.
  - right. split; [done|]. rewrite bool_decide_eq_false_2 by done.
    destruct (process_files src (regular_files d) empty_acc d) as [[a' d'] e] eqn:H.
    exists a', d'. destruct e as [|e f|f]; [by left|right; eauto|].
    by apply process_files_run in H.
Qed.

Lemma file_organizer_try_dir src flag d :
  file_organizer_try src flag (Directory d) = organize src d.
Proof. reflexivity. Qed.

End whole.

(** C9. The [organize_by_type] argument changes nothing: the returned
    text and the directory afterwards are the same for both of its
    values. *)
Theorem organize_by_type_ignored (source_directory : string) (w : fsobj) :
  file_organizer source_directory true w = file_organizer source_directory false w.
Proof. reflexivity. Qed.

(** C3. For every path text, flag and state of the path, the function
    returns a text; no exception leaves it and it does not hang. *)
Theorem file_organizer_returns (source_directory : string) (organize_by_type : bool)
    (w : fsobj) :
  ∃ text w', file_organizer source_directory organize_by_type w = Val text w'.
Proof.
  unfold file_organizer.
  destruct (file_organizer_try source_directory organize_by_type w) as [s w'|e w'|] eqn:H.
  - eauto.
  - destruct (is_permission_error e); eauto.
  - destruct w as [|data|d]; [done..|].
    rewrite file_organizer_try_dir in H.
    destruct (organize_cases source_directory d)
      as [[_ Ho]|(_ & a' & d' & [[_ Ho]|(e & f & _ & Ho)])]; congruence.
Qed.





(** ** Collisions *)

(** C2. A file that is moved goes to its category folder under its own
    name when that name is free there; when the name is taken, under the
    candidate [stem_n + extension] of the least [n] from 1 on that is free,
    every earlier candidate being taken. The name it gets was free, so
    nothing is replaced: the folder keeps every entry it had and gains the
    file with its contents, and the file leaves the root. *)
Theorem collision_resolution (source_directory : string) (a : acc) (name : string)
    (d : dir) (a' : acc) (d' : dir) :
  process_file source_directory a name d = Val a' d' →
  ∃ data new_name,
    let folder := target_folder_of name in
    let kids := folder_kids folder d in
    entry name (entries d) = Some (NFile data) ∧
    file_moves a' = file_moves a ++ [Move name "Root Directory" folder new_name] ∧
    kids !! new_name = None ∧
    (kids !! name = None → new_name = name) ∧
    (is_Some (kids !! name) →
       ∃ n, 1 ≤ n ∧
            new_name = candidate (PurePath.stem name) (PurePath.suffix name) n ∧
            ∀ j, 1 ≤ j < n →
                 is_Some (kids !! candidate (PurePath.stem name) (PurePath.suffix name) j)) ∧
    folder_kids folder d' = <[new_name := LFile data]> kids ∧
    (∀ k x, kids !! k = Some x → folder_kids folder d' !! k = Some x) ∧
    folder_kids folder d' !! new_name = Some (LFile data) ∧
    entry name (entries d') = None.
Proof.
  intros Hstep. apply process_file_done in Hstep
    as (data & new_name & Hname & [Hfree Hfirst] & Hfolder & -> & _ & _ & _ & He).
  exists data, new_name. cbv zeta.
  set (folder := target_folder_of name) in *. set (kids := folder_kids folder d) in *.
  assert (folder_kids folder d' = <[new_name := LFile data]> kids) as Hkids.
  { unfold folder_kids at 1. by rewrite He, decide_True. }
  split_and!; [done|done|done| | |done| | |].
  - intros Hnone. destruct Hfirst as [->|[[x Hx] _]]; [done|congruence].
  - intros [x Hx]. destruct Hfirst as [->|[_ Hn]]; [congruence|done].
  - intros k x Hk. rewrite Hkids. rewrite lookup_insert_ne; [done|]. congruence.
  - rewrite Hkids. apply lookup_insert_eq.
  - rewrite He. rewrite decide_False.
    + by rewrite decide_True.
    + intros Heq. rewrite <- Heq in Hfolder. destruct Hfolder; congruence.
Qed.

Lemma collision_resolution_witness :
  process_file "docs" empty_acc "x.png" Sample.collision
    = Val Sample.collision_round.1 Sample.collision_round.2 ∧
  folder_kids "Images" Sample.collision = {[ "x.png" := LFile "old" ]} ∧
  folder_kids "Images" Sample.collision_round.2
    = {[ "x.png" := LFile "old"; "x_1.png" := LFile "new" ]} ∧
  ∃ data new_name,
    entry "x.png" (entries Sample.collision) = Some (NFile data) ∧
    file_moves Sample.collision_round.1
      = [Move "x.png" "Root Directory" "Images" new_name] ∧
    folder_kids "Images" Sample.collision !! new_name = None ∧
    folder_kids "Images" Sample.collision_round.2 !! new_name = Some (LFile data).
Proof.
  split_and!; [vm_compute; reflexivity..|].
  destruct (collision_resolution "docs" empty_acc "x.png" Sample.collision
              Sample.collision_round.1 Sample.collision_round.2)
    as (data & new_name & H1 & H2 & H3 & _ & _ & _ & _ & H4 & _);
    [vm_compute; reflexivity|].
  exists data, new_name. split_and!; [exact H1|exact H2|exact H3|exact H4].
Defined.

(** ** An exception in the loop *)

(** C5. When a round raises, the loop stops there and the function
    returns the permission text for a [PermissionError] and otherwise the
    general text followed by the description of the exception. The files
    of the rounds before are where they were moved to, with their
    contents, and are no longer regular files of the root; every other
    regular file of the root is still there with its contents. *)
Theorem abort_without_rollback (source_directory : string) (organize_by_type : bool)
    (d : dir) (a' : acc) (d' : dir) (e : exn) (f : string) :
  process_files source_directory (regular_files d) empty_acc d = (a', d', Aborted e f) →
  file_organizer source_directory organize_by_type (Directory d)
    = Val (if is_permission_error e then Text.msg_permission
           else Text.msg_error +:+ str_exn e) (Directory d') ∧
  (∃ rest, regular_files d = (m_file <$> file_moves a') ++ f :: rest) ∧
  Forall (λ m, ∃ data, entry (m_file m) (entries d) = Some (NFile data) ∧
                       holds d' (m_to m) (m_new_name m) data ∧
                       m_file m ∉ regular_files d') (file_moves a') ∧
  (∀ r data, r ∉ m_file <$> file_moves a' →
             entry r (entries d) = Some (NFile data) →
             entry r (entries d') = Some (NFile data)) ∧
  regular_files d' = filter (λ r, r ∉ m_file <$> file_moves a') (regular_files d).
Proof.
  intros Hloop.
  pose proof (process_files_run _ _ _ _ _ _ _ Hloop)
    as (done & rest & dm & Hfiles & Hrun & Hraise).
  pose proof (run_moves _ _ _ _ _ _ Hrun) as (new & Hmoves & Hdone & _ & Hall).
  cbn in Hmoves. subst new.
  assert (regular_files d' = filter (λ r, r ∉ m_file <$> file_moves a') (regular_files d))
    as Hleft.
  { unfold regular_files. rewrite (raised_files_of _ _ _ _ _ _ Hraise).
    rewrite (run_files_of _ _ _ _ _ _ Hrun). by rewrite Hdone. }
  split_and!.
  - unfold file_organizer. rewrite file_organizer_try_dir. unfold organize. cbv zeta.
    rewrite bool_decide_eq_false_2.
    + rewrite Hloop. by destruct (is_permission_error e).
    + rewrite Hfiles. by destruct done.
  - exists rest. by rewrite Hdone.
  - rewrite Forall_forall in Hall. apply Forall_forall. intros m Hm.
    destruct (Hall m Hm) as (_ & _ & data & Hdata & Hholds).
    exists data. split_and!; [done| |].
    + eapply keeps_folders_holds; [|done]. by eapply raised_keeps_folders.
    + rewrite Hleft. intros [Hnot _]%list_elem_of_filter. apply Hnot.
      apply list_elem_of_fmap. eauto.
  - intros r data Hr Hdata.
    eapply raised_keeps_files; [done|apply not_elem_of_nil|].
    eapply run_keeps_files; [done| |done]. by rewrite <- Hdone.
  - done.
Qed.

Lemma abort_without_rollback_witness :
  Sample.loop_end Sample.locked
    = (Sample.locked_end.1.1, Sample.locked_end.1.2,
       Aborted (EACCES "docs/Images/a.png") "a.png") ∧
  file_organizer "docs" true (Directory Sample.locked)
    = Val Text.msg_permission (Directory Sample.locked_end.1.2) ∧
  regular_files Sample.locked_end.1.2 = ["a.png"; "b.md"] ∧
  Sample.loop_end Sample.blocked
    = (Sample.blocked_end.1.1, Sample.blocked_end.1.2,
       Aborted (ENOTDIR "docs/Images/a.png") "a.png") ∧
  file_organizer "docs" true (Directory Sample.blocked)
    = Val (Text.msg_error +:+ "[Errno 20] Not a directory: 'docs/Images/a.png'")
        (Directory Sample.blocked_end.1.2).
Proof.
  split_and!; [vm_compute; reflexivity| |vm_compute; reflexivity
              |vm_compute; reflexivity|].
  - refine (proj1 (abort_without_rollback "docs" true Sample.locked
                     Sample.locked_end.1.1 Sample.locked_end.1.2
                     (EACCES "docs/Images/a.png") "a.png" _)).
    vm_compute. reflexivity.
  - refine (proj1 (abort_without_rollback "docs" true Sample.blocked
                     Sample.blocked_end.1.1 Sample.blocked_end.1.2
                     (ENOTDIR "docs/Images/a.png") "a.png" _)).
    vm_compute. reflexivity.
Defined.

(** ** A run that succeeds *)

Section success.
Implicit Types (d : dir) (src text : string) (w : fsobj).

(** Only the report starts with the words of line 116. *)
Lemma success_inv src flag w text w' :
  file_organizer src flag w = Val text w' →
  Py.startswith text Text.msg_complete = true →
  ∃ d a' d',
    w = Directory d ∧ w' = Directory d' ∧
    process_files src (regular_files d) empty_acc d = (a', d', Completed) ∧
    text = summary src (regular_files d) a'.
Proof.
  unfold file_organizer.
  destruct w as [|data|d]; [cbn; intros [= <- <-]; done..|].
  rewrite file_organizer_try_dir.
  destruct (organize_cases src d)
    as [[_ ->]|(_ & a' & d' & [[Hloop ->]|(e & f & _ & ->)])].
  - intros [= <- <-]. done.
  - intros [= <- <-] _. eauto 10.
  - destruct (is_permission_error e); intros [= <- <-]; done.
Qed.

Lemma completed_leaves_no_file src d a' d' :
  process_files src (regular_files d) empty_acc d = (a', d', Completed) →
  regular_files d' = [].
Proof.
  intros H. apply process_files_run in H. apply run_files_of in H.
  unfold regular_files. rewrite H. apply filter_none. intros x Hx Hn. exact (Hn Hx).
Qed.

End success.

(** C6. After a run that returned the report, the source directory has no
    regular file left, and running the function again, with either flag,
    returns the "No files found" text and leaves the directory as it is. *)
Theorem rerun_finds_no_files (source_directory : string) (flag flag' : bool)
    (w : fsobj) (text : string) (w' : fsobj) :
  file_organizer source_directory flag w = Val text w' →
  Py.startswith text Text.msg_complete = true →
  (∃ d', w' = Directory d' ∧ regular_files d' = []) ∧
  file_organizer source_directory flag' w' = Val (msg_no_files source_directory) w'.
Proof.
  intros Hrun Hok.
  apply success_inv in Hrun as (d & a' & d' & -> & -> & Hloop & _); [|done].
  apply completed_leaves_no_file in Hloop.
  split; [eauto|].
  unfold file_organizer. rewrite file_organizer_try_dir. unfold organize. cbv zeta.
  by rewrite bool_decide_eq_true_2.
Qed.

Lemma rerun_finds_no_files_witness :
  file_organizer "docs" true (Directory Sample.seven)
    = Val (summary "docs" (regular_files Sample.seven) Sample.seven_end.1.1)
        (Directory Sample.seven_end.1.2) ∧
  regular_files Sample.seven_end.1.2 = [] ∧
  file_organizer "docs" false (Directory Sample.seven_end.1.2)
    = Val (msg_no_files "docs") (Directory Sample.seven_end.1.2).
Proof.
  split_and!; [vm_compute; reflexivity..|].
  refine (proj2 (rerun_finds_no_files "docs" true false (Directory Sample.seven)
                   (summary "docs" (regular_files Sample.seven) Sample.seven_end.1.1)
                   (Directory Sample.seven_end.1.2) _ _));
    vm_compute; reflexivity.
Defined.

(** ** The report *)

Section report.
Implicit Types (m : move) (moves : list move) (c : string) (created : gset string).

Lemma string_snoc_inj (s1 s2 : string) (c1 c2 : ascii) :
  s1 +:+ String c1 "" = s2 +:+ String c2 "" → s1 = s2 ∧ c1 = c2.
Proof.
  revert s2. induction s1 as [|a s1 IH]; intros [|b s2] H;
    rewrite ?string_app_cons, ?string_app_nil in H.
  - by injection H as ->.
  - injection H as -> H. by destruct s2.
  - injection H as -> H. by destruct s1.
  - injection H as -> H. apply IH in H as [-> ->]. done.
Qed.

Lemma ends_with_app (s t : string) : ends_with (s +:+ t) t.
Proof. by exists s. Qed.

(** The line of a change ends with the marker exactly when the file got
    another name. *)
Lemma change_line_marker m :
  ends_with (change_line m) (" (renamed)" +:+ Py.nl) ↔ m_file m ≠ m_new_name m.
Proof.
  unfold change_line. destruct (String.eqb_spec (m_file m) (m_new_name m)) as [Heq|Hne];
    cbn [negb].
  - split; [|done]. intros [pre Hpre] _.
    change (" (renamed)" +:+ Py.nl) with (" (renamed" +:+ ")" +:+ Py.nl) in Hpre.
    rewrite <- !string_app_assoc in Hpre. unfold Py.nl in Hpre.
    apply string_snoc_inj in Hpre as [Hpre _].
    by apply string_snoc_inj in Hpre as [_ ?].
  - split; [done|]. intros _.
    rewrite <- !string_app_assoc. rewrite string_app_assoc. apply ends_with_app.
Qed.






Lemma not_folder_no_kids d c : is_folder d c = false → folder_kids c d = ∅.
Proof.
  unfold is_folder, folder_kids. by destruct (entry c (entries d)) as [[|]|].
Qed.

End report.



(** * Further properties *)

(** ** Names: stem, suffix and candidates *)

Section names.
Implicit Types (s r p name : string) (c : ascii) (n : nat).

Lemma string_app_nil_r s : s +:+ "" = s.
Proof. induction s as [|a s IH]; [done|]. by rewrite string_app_cons, IH. Qed.

Lemma take_drop n s : Py.take n s +:+ Py.drop n s = s.
Proof.
  revert s. induction n as [|n IH]; intros [|a s]; cbn; try done.
  by rewrite string_app_cons, IH.
Qed.

Lemma take_app_length p s : Py.take (String.length p) (p +:+ s) = p.
Proof.
  induction p as [|a p IH]; [by destruct s|].
  rewrite string_app_cons. cbn. by rewrite IH.
Qed.




(** From the last occurrence on, the string is that character followed by
    a rest without it. *)
Lemma rfind_drop c s :
  (0 ≤ Py.rfind c s)%Z →
  ∃ r, Py.drop (Z.to_nat (Py.rfind c s)) s = String c r ∧ Py.rfind c r = (-1)%Z.
Proof.
  induction s as [|a s IH]; cbn [Py.rfind]; [lia|].
  pose proof (rfind_bounds c s) as Hb.
  destruct (0 <=? Py.rfind c s)%Z eqn:Hi.
  - apply Z.leb_le in Hi. intros _. destruct (IH Hi) as (r & Hr & Hno).
    exists r. split; [|done].
    replace (Z.to_nat (Py.rfind c s + 1)) with (S (Z.to_nat (Py.rfind c s))) by lia.
    done.
  - apply Z.leb_gt in Hi. destruct (Ascii.eqb_spec a c) as [->|]; [|lia].
    intros _. exists s. split; [done|lia].
Qed.

Lemma suffix_shape name :
  PurePath.suffix name = "" ∨
  ∃ r, PurePath.suffix name = String "." r ∧ r ≠ "" ∧ Py.rfind "." r = (-1)%Z.
Proof.
  unfold PurePath.suffix.
  destruct (0 <? Py.rfind "." name)%Z eqn:H0; [|by left].
  destruct (Py.rfind "." name <? Py.len name - 1)%Z eqn:H1; [|by left].
  right. cbn [andb]. apply Z.ltb_lt in H0, H1.
  destruct (rfind_drop "." name) as (r & Hr & Hno); [lia|].
  exists r. split_and!; [done| |done].
  intros ->. pose proof (take_drop (Z.to_nat (Py.rfind "." name)) name) as Htd.
  rewrite Hr in Htd. apply (f_equal String.length) in Htd.
  rewrite string_app_length in Htd. cbn in Htd.
  assert (String.length (Py.take (Z.to_nat (Py.rfind "." name)) name)
          ≤ Z.to_nat (Py.rfind "." name)) as Hle.
  { clear. generalize (Z.to_nat (Py.rfind "." name)). intros n. revert name.
    induction n as [|n IH]; intros [|a s]; cbn; try lia. specialize (IH s). lia. }
  unfold Py.len in H1. lia.
Qed.

Lemma stem_suffix name : PurePath.stem name +:+ PurePath.suffix name = name.
Proof.
  unfold PurePath.stem, PurePath.suffix.
  destruct ((0 <? Py.rfind "." name)%Z && (Py.rfind "." name <? Py.len name - 1)%Z).
  - apply take_drop.
  - apply string_app_nil_r.
Qed.







End names.

(** X1. A name is its stem followed by its suffix; the suffix is empty or
    a dot followed by a non-empty rest without a dot; and no candidate
    [stem_n + suffix] is the name itself. *)
Theorem name_splits_into_stem_and_suffix (name : string) (n : nat) :
  PurePath.stem name +:+ PurePath.suffix name = name ∧
  (PurePath.suffix name = "" ∨
   ∃ r, PurePath.suffix name = String "." r ∧ r ≠ "" ∧ Py.rfind "." r = (-1)%Z) ∧
  candidate (PurePath.stem name) (PurePath.suffix name) n ≠ name.
Proof.
  split_and!; [apply stem_suffix|apply suffix_shape|].
  intros H. apply (f_equal String.length) in H.
  rewrite <- (stem_suffix name) in H at 3. unfold candidate in H.
  rewrite !string_app_length in H. cbn in H. lia.
Qed.



(** ** The table without shadowing *)

(** X3. Every extension listed under a category is assigned that
    category, whatever the case of the letters in the file's extension: no
    extension is listed twice, so no row of the table hides another. *)
Theorem listed_extension_gets_its_category (c : string) (exts : list string)
    (ext name : string) :
  (c, exts) ∈ file_categories →
  ext ∈ exts →
  Py.lower (PurePath.suffix name) = ext →
  target_folder_of name = c ∧
  ∀ c' exts', (c', exts') ∈ file_categories → ext ∈ exts' → c' = c.
Proof.
  intros Hc Hext Hname.
  assert (Forall (λ p, Forall (λ e,
            category_loop file_categories e = Some p.1 ∧
            Forall (λ q, e ∈ q.2 → q.1 = p.1) file_categories) p.2) file_categories)
    as Hall.
  { apply (bool_decide_unpack _). by vm_compute. }
  rewrite Forall_forall in Hall. specialize (Hall _ Hc). cbn [fst snd] in Hall.
  rewrite Forall_forall in Hall. destruct (Hall _ Hext) as [Hloop Huniq].
  split.
  - unfold target_folder_of, target_folder_in. rewrite Hname, Hloop. cbn.
    pose proof file_categories_named as Hn. rewrite Forall_forall in Hn.
    specialize (Hn _ Hc). cbn in Hn. by destruct c.
  - intros c' exts' Hc' Hin. rewrite Forall_forall in Huniq.
    by apply (Huniq _ Hc' Hin).
Qed.

Lemma listed_extension_gets_its_category_witness :
  target_folder_of "Report.DocX" = "Word Documents".
Proof.
  refine (proj1 (listed_extension_gets_its_category "Word Documents"
                   [".doc"; ".docx"; ".rtf"; ".odt"] ".docx" "Report.DocX" _ _ _));
    [apply (bool_decide_unpack _); by vm_compute..|reflexivity].
Defined.

(** ** Whole runs *)

Section whole_runs.
Implicit Types (d : dir) (src : string) (a : acc) (done files : list string).

Lemma target_folder_listed name :
  target_folder_of name ∈ "Other Files" :: file_categories.*1.
Proof.
  destruct (target_folder_in_first file_categories name file_categories_named)
    as [(pre & c & exts & post & Htable & _ & _ & Hc)|[_ Hc]].
  - fold (target_folder_of name) in Hc. rewrite Hc. right.
    rewrite Htable, fmap_app, fmap_cons. apply elem_of_app. right. left.
  - fold (target_folder_of name) in Hc. rewrite Hc. left.
Qed.


Lemma run_is_folder src done a d a' d' c :
  run src done a d a' d' →
  is_folder d' c = is_folder d c || bool_decide (c ∈ target_folder_of <$> done).
Proof.
  induction 1 as [a d|f rest a d a1 d1 a' d' Hstep _ IH].
  - rewrite bool_decide_eq_false_2 by apply not_elem_of_nil. by rewrite orb_false_r.
  - rewrite IH, (step_is_folder _ _ _ _ _ _ c Hstep), <- orb_assoc. f_equal.
    rewrite fmap_cons. destruct (decide (c = target_folder_of f)) as [->|Hne].
    + rewrite (bool_decide_eq_true_2 (_ ∈ _ :: _)) by left.
      by rewrite bool_decide_eq_true_2.
    + rewrite (bool_decide_eq_false_2 (c = _)) by done. cbn.
      apply bool_decide_ext. rewrite elem_of_cons. naive_solver.
Qed.


Lemma raised_is_folder src a name d e d' c :
  process_file src a name d = Exc e d' →
  is_folder d' c = true → is_folder d c = true ∨ c = target_folder_of name.
Proof.
  intros H. apply process_file_raised in H
    as (_ & _ & [He|[He|(data & new_name & Hfree & Hfolder & He)]]);
    unfold is_folder; rewrite He.
  - rewrite entry_after_mkdir. destruct (entry c (entries d)) as [x|]; [by left|].
    case_decide; [by right|done].
  - by left.
  - case_decide as Hc; [by right|by left].
Qed.

Lemma loop_keeps_folders src files a d a' d' e :
  process_files src files a d = (a', d', e) →
  dir_writable d' = dir_writable d ∧
  keeps_folders d d' ∧
  ∀ c, is_folder d' c = true →
       is_folder d c = true ∨ c ∈ "Other Files" :: file_categories.*1.
Proof.
  intros H. apply process_files_run in H.
  assert (∀ done a' dm, run src done a d a' dm → dir_writable dm = dir_writable d) as Hw.
  { clear. intros done a' dm. induction 1 as [|f rest a d a1 d1 a' d' Hstep _ IH]; [done|].
    rewrite IH. apply process_file_done in Hstep
      as (_ & _ & _ & _ & _ & _ & Hw & Hw' & _). congruence. }
  assert (∀ done a' dm c, run src done a d a' dm → is_folder dm c = true →
            is_folder d c = true ∨ c ∈ "Other Files" :: file_categories.*1) as Hnew.
  { intros done a1 dm c Hrun. rewrite (run_is_folder _ _ _ _ _ _ c Hrun).
    intros [?|Hin%bool_decide_eq_true]%orb_true_iff; [by left|right].
    apply list_elem_of_fmap in Hin as (f & -> & _). apply target_folder_listed. }
  destruct e as [|ex f|f]; [|destruct H as (done & rest & dm & _ & Hrun & Hraise)|done].
  - split_and!; [by eapply Hw|by eapply run_keeps_folders|].
    intros c. by eapply Hnew.
  - split_and!.
    + apply process_file_raised in Hraise as Hr. destruct Hr as (-> & _). by eapply Hw.
    + eapply keeps_folders_trans; [by eapply run_keeps_folders|].
      by eapply raised_keeps_folders.
    + intros c Hc. destruct (raised_is_folder _ _ _ _ _ _ c Hraise Hc) as [Hc'| ->].
      * by eapply Hnew.
      * right. apply target_folder_listed.
Qed.

End whole_runs.

(** X4. Whatever the function returns for a directory, every folder that
    was there is still there with its permission and with every entry it
    had, unchanged; the directory keeps its own permission; and a folder
    that is new has one of the twelve category names. *)
Theorem folders_survive_every_outcome (source_directory : string)
    (organize_by_type : bool) (d : dir) (text : string) (w' : fsobj) :
  file_organizer source_directory organize_by_type (Directory d) = Val text w' →
  ∃ d',
    w' = Directory d' ∧
    dir_writable d' = dir_writable d ∧
    keeps_folders d d' ∧
    ∀ c, is_folder d' c = true →
         is_folder d c = true ∨ c ∈ "Other Files" :: file_categories.*1.
Proof.
  unfold file_organizer. rewrite file_organizer_try_dir.
  destruct (organize_cases source_directory d)
    as [[_ ->]|(_ & a' & d' & [[Hloop ->]|(e & f & Hloop & ->)])].
  - intros [= <- <-]. exists d. split_and!; [done|done|apply keeps_folders_refl|auto].
  - intros [= <- <-]. exists d'. split; [done|]. by eapply loop_keeps_folders.
  - intros H. exists d'. split; [by destruct (is_permission_error e); injection H|].
    by eapply loop_keeps_folders.
Qed.

Lemma folders_survive_every_outcome_witness :
  ∃ d',
    Directory Sample.locked_end.1.2 = Directory d' ∧
    dir_writable d' = dir_writable Sample.locked ∧
    keeps_folders Sample.locked d' ∧
    ∀ c, is_folder d' c = true →
         is_folder Sample.locked c = true ∨ c ∈ "Other Files" :: file_categories.*1.
Proof.
  apply (folders_survive_every_outcome "docs" true Sample.locked Text.msg_permission).
  vm_compute. reflexivity.
Defined.



(** X6. In a run that returns the report, the folders counted as created
    are the folders that are there at the end and were not there at the
    beginning, and every folder, old or new, has grown by the number of
    files of its category. *)
Theorem report_counts_match_directory (source_directory : string)
    (organize_by_type : bool) (w : fsobj) (text : string) (w' : fsobj) :
  file_organizer source_directory organize_by_type w = Val text w' →
  Py.startswith text Text.msg_complete = true →
  ∃ d d' a',
    w = Directory d ∧ w' = Directory d' ∧
    text = summary source_directory (regular_files d) a' ∧
    (∀ c, c ∈ created_folders a' ↔ is_folder d' c = true ∧ is_folder d c = false) ∧
    (∀ c, size (folder_kids c d')
          = size (folder_kids c d)
            + length (filter (λ f, target_folder_of f = c) (regular_files d))).
Proof.
  intros Hrun Hok.
  apply success_inv in Hrun as (d & a' & d' & -> & -> & Hloop & ->); [|done].
  apply process_files_run in Hloop.
  pose proof (run_created _ _ _ _ _ _ Hloop) as Hcreated.
  cbn in Hcreated. rewrite union_empty_l_L in Hcreated.
  exists d, d', a'. split_and!; [done..| |].
  - intros c. rewrite (run_is_folder _ _ _ _ _ _ c Hloop).
    rewrite Hcreated, elem_of_list_to_set, list_elem_of_filter.
    destruct (is_folder d c); cbn; [naive_solver|].
    rewrite bool_decide_eq_true. naive_solver.
  - intros c. by apply (run_sizes _ _ _ _ _ _ c Hloop).
Qed.

Lemma report_counts_match_directory_witness :
  ∃ d d' a',
    Directory Sample.seven = Directory d ∧
    Directory Sample.seven_end.1.2 = Directory d' ∧
    (∀ c, c ∈ created_folders a' ↔ is_folder d' c = true ∧ is_folder d c = false) ∧
    size (folder_kids "Text Files" d') = size (folder_kids "Text Files" d) + 4.
Proof.
  destruct (report_counts_match_directory "docs" true (Directory Sample.seven)
              (summary "docs" (regular_files Sample.seven) Sample.seven_end.1.1)
              (Directory Sample.seven_end.1.2))
    as (d & d' & a' & Hd & Hd' & _ & Hc & Hs);
    [vm_compute; reflexivity..|].
  exists d, d', a'. split_and!; [exact Hd|exact Hd'|exact Hc|].
  rewrite (Hs "Text Files"). injection Hd as <-. reflexivity.
Defined.

(** ** Collisions and the marker; a directory that cannot be written to *)

(** X7. The line of a file carries the ["(renamed)"] marker exactly when
    the name of the file was taken in its category folder as the round
    began. *)
Theorem renamed_marker_iff_name_taken (source_directory : string) (a : acc)
    (name : string) (d : dir) (a' : acc) (d' : dir) :
  process_file source_directory a name d = Val a' d' →
  ∃ m,
    file_moves a' = file_moves a ++ [m] ∧
    m_file m = name ∧ m_to m = target_folder_of name ∧
    (ends_with (change_line m) (" (renamed)" +:+ Py.nl)
     ↔ occupied (target_folder_of name) d name = true).
Proof.
  intros Hstep. apply process_file_done in Hstep
    as (data & new_name & _ & [Hfree Hfirst] & _ & -> & _).
  eexists. split_and!; [done..|].
  rewrite change_line_marker. cbn [m_file m_new_name].
  unfold occupied. rewrite bool_decide_eq_true. split.
  - intros Hne. destruct Hfirst as [->|[Htaken _]]; done.
  - intros [x Hx] ->. congruence.
Qed.

Lemma renamed_marker_iff_name_taken_witness :
  occupied "Images" Sample.collision "x.png" = true ∧
  ∃ m,
    file_moves Sample.collision_round.1 = [m] ∧
    m_file m = "x.png" ∧ m_to m = "Images" ∧
    ends_with (change_line m) (" (renamed)" +:+ Py.nl).
Proof.
  split; [vm_compute; reflexivity|].
  destruct (renamed_marker_iff_name_taken "docs" empty_acc "x.png" Sample.collision
              Sample.collision_round.1 Sample.collision_round.2)
    as (m & Hm & Hf & Ht & Hiff); [vm_compute; reflexivity|].
  exists m. split_and!; [exact Hm|exact Hf|exact Ht|].
  apply Hiff. vm_compute. reflexivity.
Defined.

(** X8. A source directory that cannot be written to and holds a regular
    file is never reported as organized: the function returns the
    permission text or the general error text, and every regular file is
    still in the root. *)
Theorem read_only_directory_keeps_its_files (source_directory : string)
    (organize_by_type : bool) (d : dir) :
  dir_writable d = false →
  regular_files d ≠ [] →
  ∃ text d',
    file_organizer source_directory organize_by_type (Directory d)
      = Val text (Directory d') ∧
    (text = Text.msg_permission ∨ ∃ e, text = Text.msg_error +:+ str_exn e) ∧
    Py.startswith text Text.msg_complete = false ∧
    regular_files d' = regular_files d ∧
    keeps_files [] d d'.
Proof.
  intros Hw Hfiles.
  assert (∀ files a a' d', run source_directory files a d a' d' → files = [] ∧ d' = d)
    as Hnorun.
  { intros files a a' d' Hrun. destruct Hrun as [|f rest a0 d0 a1 d1 a2 d2 Hstep _]; [done|].
    apply process_file_done in Hstep as (_ & _ & _ & _ & _ & _ & Hw' & _). congruence. }
  unfold file_organizer. rewrite file_organizer_try_dir.
  destruct (organize_cases source_directory d)
    as [[Hnil _]|(_ & a' & d' & [[Hloop _]|(e & f & Hloop & ->)])]; [done| |].
  - apply process_files_run, Hnorun in Hloop as [? _]. done.
  - apply process_files_run in Hloop as (done & rest & dm & _ & Hrun & Hraise).
    apply Hnorun in Hrun as [-> ->].
    exists (if is_permission_error e then Text.msg_permission
            else Text.msg_error +:+ str_exn e), d'.
    split_and!.
    + by destruct (is_permission_error e).
    + destruct (is_permission_error e); eauto.
    + by destruct (is_permission_error e).
    + by eapply raised_files_of.
    + by eapply raised_keeps_files.
Qed.

Lemma read_only_directory_keeps_its_files_witness :
  ∃ text d',
    file_organizer "docs" true
      (Directory (Dir false (entries Sample.collision))) = Val text (Directory d') ∧
    Py.startswith text Text.msg_complete = false ∧
    regular_files d' = ["x.png"].
Proof.
  destruct (read_only_directory_keeps_its_files "docs" true
              (Dir false (entries Sample.collision)))
    as (text & d' & H & _ & Hs & Hf & _); [reflexivity|by vm_compute|].
  exists text, d'. split_and!; [exact H|exact Hs|exact Hf].
Defined.

(** ** The keyword filter of the assistant page *)

Section filter.
Import Assistant.
Implicit Types (s sub pre post query : string).

Lemma prefix_iff sub s : String.prefix sub s = true ↔ ∃ post, s = sub +:+ post.
Proof.
  revert s. induction sub as [|a sub IH]; intros [|b s]; cbn [String.prefix].
  - split; [|done]. intros _. by exists "".
  - split; [|done]. intros _. by exists (String b s).
  - split; [done|]. intros [post H]. by rewrite string_app_cons in H.
  - destruct (ascii_dec a b) as [->|Hne].
    + rewrite IH. split; intros [post H]; exists post.
      * by rewrite string_app_cons, H.
      * rewrite string_app_cons in H. by injection H.
    + split; [done|]. intros [post H]. rewrite string_app_cons in H.
      injection H as ? _. congruence.
Qed.

Lemma contains_iff sub s :
  contains sub s = true ↔ ∃ pre post, s = pre +:+ sub +:+ post.
Proof.
  induction s as [|b s IH]; cbn [contains].
  - rewrite orb_false_r, prefix_iff. split.
    + intros [post H]. by exists "", post.
    + intros (pre & post & H). destruct pre; [by exists post|].
      by rewrite string_app_cons in H.
  - rewrite orb_true_iff, prefix_iff, IH. split.
    + intros [[post H]|(pre & post & H)].
      * by exists "", post.
      * exists (String b pre), post. by rewrite string_app_cons, H.
    + intros (pre & post & H). destruct pre as [|c pre].
      * left. by exists post.
      * right. rewrite string_app_cons in H. injection H as _ H. eauto.
Qed.

Lemma contains_embedded sub s pre post :
  contains sub s = true → contains sub (pre +:+ s +:+ post) = true.
Proof.
  rewrite !contains_iff. intros (p & q & ->).
  exists (pre +:+ p), (q +:+ post). by rewrite !string_app_assoc.
Qed.

Lemma contains_trans s1 s2 s3 :
  contains s1 s2 = true → contains s2 s3 = true → contains s1 s3 = true.
Proof.
  rewrite (contains_iff s2 s3). intros H (pre & post & ->). by apply contains_embedded.
Qed.

Lemma lower_app s1 s2 : Py.lower (s1 +:+ s2) = Py.lower s1 +:+ Py.lower s2.
Proof.
  induction s1 as [|a s1 IH]; [done|].
  rewrite string_app_cons. cbn [Py.lower]. by rewrite string_app_cons, IH.
Qed.

Lemma is_tool_request_iff query :
  is_tool_request query = true ↔
  ∃ keyword, keyword ∈ tool_keywords ∧ contains keyword (Py.lower query) = true.
Proof.
  unfold is_tool_request. rewrite existsb_exists.
  split; intros (k & Hk & H); exists k; (split; [|done]); by apply list_elem_of_In.
Qed.

Lemma keywords_hold_tool :
  Forall (λ keyword, contains "tool" keyword = true) tool_keywords.
Proof. apply (bool_decide_unpack _). by vm_compute. Qed.

Lemma has_suffix_refl s : has_suffix s s = true.
Proof. destruct s; cbn [has_suffix]; by rewrite String.eqb_refl. Qed.

Lemma has_suffix_cons c s t : has_suffix s t = true → has_suffix (String c s) t = true.
Proof. intros H. cbn [has_suffix]. rewrite H. apply orb_true_r. Qed.

(** A beginning of [a +:+ b] lies in [a], or covers [a] and goes on
    into [b]. *)
Lemma prefix_app_inv sub a b :
  String.prefix sub (a +:+ b) = true →
  String.prefix sub a = true ∨ ∃ t, sub = a +:+ t ∧ t ≠ "".
Proof.
  rewrite !prefix_iff. revert a. induction sub as [|x sub IH]; intros a.
  { intros _. left. by exists a. }
  destruct a as [|c a].
  - intros _. right. by exists (String x sub).
  - rewrite !string_app_cons. intros [post H]. injection H as -> H.
    destruct (IH a) as [[post' ->]|(t & -> & Ht)]; [by exists post| |].
    + left. exists post'. by rewrite string_app_cons.
    + right. exists t. by rewrite string_app_cons.
Qed.

Lemma crossing_intro a t :
  a ≠ "" → t ≠ "" → crossing a (a +:+ t) = true.
Proof.
  intros Ha Ht. unfold crossing. apply existsb_exists.
  exists (String.length a). split.
  - apply in_seq. rewrite string_app_length.
    destruct a; [done|]. destruct t; [done|]. cbn. lia.
  - rewrite take_app_length. apply has_suffix_refl.
Qed.

Lemma crossing_cons c a sub : crossing a sub = true → crossing (String c a) sub = true.
Proof.
  unfold crossing. rewrite !existsb_exists. intros (i & Hi & H).
  exists i. split; [done|]. by apply has_suffix_cons.
Qed.

(** An occurrence in [a +:+ b] lies in [a], lies in [b], or starts in [a]
    and runs on into [b]. *)
Lemma contains_app_inv sub a b :
  contains sub (a +:+ b) = true →
  contains sub a = true ∨ crossing a sub = true ∨ contains sub b = true.
Proof.
  induction a as [|c a IH]; [by auto|].
  rewrite string_app_cons. cbn [contains].
  intros [H|H]%orb_true_iff.
  - change (String c (a +:+ b)) with (String c a +:+ b) in H.
    apply prefix_app_inv in H as [H|(t & -> & Ht)].
    + left. cbn [contains]. by rewrite H.
    + right. left. by apply crossing_intro.
  - apply IH in H as [H|[H|H]].
    + left. cbn [contains]. rewrite H. apply orb_true_r.
    + right. left. by apply crossing_cons.
    + by right; right.
Qed.

(** A fixed beginning that holds no keyword, and no beginning of one at
    its end, does not change what the filter says. *)
Lemma is_tool_request_after a query :
  existsb (λ keyword, contains keyword (Py.lower a) || crossing (Py.lower a) keyword)
    tool_keywords = false →
  is_tool_request (a +:+ query) = is_tool_request query.
Proof.
  intros Hclean. apply eq_true_iff_eq. rewrite !is_tool_request_iff.
  split; intros (k & Hk & H); exists k; (split; [done|]).
  - rewrite lower_app in H. apply contains_app_inv in H as [H|[H|H]]; [| |done].
    + assert (existsb (λ keyword, contains keyword (Py.lower a)
                                  || crossing (Py.lower a) keyword) tool_keywords = true);
        [|congruence].
      apply existsb_exists. exists k. split; [by apply list_elem_of_In|].
      by rewrite H.
    + assert (existsb (λ keyword, contains keyword (Py.lower a)
                                  || crossing (Py.lower a) keyword) tool_keywords = true);
        [|congruence].
      apply existsb_exists. exists k. split; [by apply list_elem_of_In|].
      rewrite H. apply orb_true_r.
  - rewrite lower_app. rewrite <- (string_app_nil_r (Py.lower query)).
    by apply contains_embedded.
Qed.

End filter.

(** X9. A query that holds one of the fifteen phrases, in any mix of
    upper and lower case and with any text before and after, is refused:
    what is shown is the refusal and its help text, whatever the agent
    would have answered. *)
Theorem tool_request_never_reaches_agent (pre mid post keyword : string)
    (a : Assistant.agent) :
  keyword ∈ Assistant.tool_keywords →
  Py.lower mid = keyword →
  Assistant.is_tool_request (pre +:+ mid +:+ post) = true ∧
  Assistant.show_query a (pre +:+ mid +:+ post)
    = [Assistant.Markdown "---";
       Assistant.Info ("🎯 Query: " +:+ pre +:+ mid +:+ post);
       Assistant.Warning Assistant.refusal;
       Assistant.Markdown Assistant.refusal_help].
Proof.
  intros Hk Hmid.
  assert (Assistant.is_tool_request (pre +:+ mid +:+ post) = true) as Hreq.
  { apply is_tool_request_iff. exists keyword. split; [done|].
    rewrite !lower_app, Hmid. apply contains_embedded.
    apply contains_iff. exists "", "". by rewrite string_app_nil_r. }
  split; [done|]. unfold Assistant.show_query.
  rewrite Hreq. rewrite bool_decide_eq_false_2; [done|].
  intros Hnil. apply (f_equal String.length) in Hnil.
  rewrite !string_app_length in Hnil.
  assert (Forall (λ k, k ≠ "") Assistant.tool_keywords) as Hne.
  { apply (bool_decide_unpack _). by vm_compute. }
  rewrite Forall_forall in Hne. apply (Hne _ Hk).
  rewrite <- Hmid. destruct mid; [done|]. cbn in Hnil. lia.
Qed.

Lemma tool_request_never_reaches_agent_witness :
  Assistant.show_query (λ q, inl q) ("Please " +:+ "LIST Tools" +:+ " now")
    = Assistant.show_query (λ q, inr q) ("Please " +:+ "LIST Tools" +:+ " now").
Proof.
  rewrite (proj2 (tool_request_never_reaches_agent "Please " "LIST Tools" " now"
                    "list tools" (λ q, inl q)
                    ltac:(apply (bool_decide_unpack _); by vm_compute) eq_refl)).
  rewrite (proj2 (tool_request_never_reaches_agent "Please " "LIST Tools" " now"
                    "list tools" (λ q, inr q)
                    ltac:(apply (bool_decide_unpack _); by vm_compute) eq_refl)).
  reflexivity.
Defined.

(** X10. A non-empty query without the letters [tool], in any case, in a
    row is never refused: it is given to the agent as it is, and the
    answer or the error of the agent is shown. *)
Theorem query_without_tool_reaches_agent (a : Assistant.agent) (query : string) :
  query ≠ "" →
  Assistant.contains "tool" (Py.lower query) = false →
  Assistant.is_tool_request query = false ∧
  Assistant.show_query a query
    = [Assistant.Markdown "---"; Assistant.Info ("🎯 Query: " +:+ query);
       Assistant.Spinner "Processing your AWS query..."] ++
      match a query with
      | inl result =>
          [Assistant.Success "✅ Operation Complete";
           Assistant.Markdown ("**Result:**" +:+ Py.nl +:+ Py.nl +:+ "```" +:+ Py.nl
                               +:+ result +:+ Py.nl +:+ "```")]
      | inr e => [Assistant.Error ("❌ Error: " +:+ e)]
      end.
Proof.
  intros Hne Hno.
  assert (Assistant.is_tool_request query = false) as Hreq.
  { apply not_true_is_false. intros (k & Hk & H)%is_tool_request_iff.
    pose proof keywords_hold_tool as Hall. rewrite Forall_forall in Hall.
    pose proof (contains_trans _ _ _ (Hall k Hk) H). congruence. }
  split; [done|]. unfold Assistant.show_query, Assistant.execute_query.
  rewrite Hreq. by rewrite bool_decide_eq_false_2.
Qed.

Lemma query_without_tool_reaches_agent_witness :
  Assistant.show_query (λ q, inl "3 buckets") "List all my S3 buckets"
    = [Assistant.Markdown "---"; Assistant.Info "🎯 Query: List all my S3 buckets";
       Assistant.Spinner "Processing your AWS query...";
       Assistant.Success "✅ Operation Complete";
       Assistant.Markdown ("**Result:**" +:+ Py.nl +:+ Py.nl +:+ "```" +:+ Py.nl
                           +:+ "3 buckets" +:+ Py.nl +:+ "```")].
Proof.
  apply (proj2 (query_without_tool_reaches_agent (λ q, inl "3 buckets")
                  "List all my S3 buckets" ltac:(done) eq_refl)).
Defined.

(** X11. The query the organize button sets for a folder path is refused
    exactly when the path itself holds one of the phrases: the words put
    before the path never complete a phrase. *)
Theorem organize_query_refused_iff_path (folder_path : string) :
  Assistant.is_tool_request (Assistant.organize_query folder_path)
    = Assistant.is_tool_request folder_path.
Proof.
  unfold Assistant.organize_query. apply is_tool_request_after.
  vm_compute. reflexivity.
Qed.

(** X12. For each region of the select box, no quick action sets a query
    that the filter refuses, and none sets an empty query. *)
Theorem quick_actions_pass_filter (region label query : string) :
  region ∈ Assistant.regions →
  (label, query) ∈ Assistant.quick_actions region →
  query ≠ "" ∧ Assistant.is_tool_request query = false.
Proof.
  intros Hr Hq.
  assert (Forall (λ r, Forall (λ p, p.2 ≠ "" ∧ Assistant.is_tool_request p.2 = false)
                         (Assistant.quick_actions r)) Assistant.regions) as Hall.
  { apply (bool_decide_unpack _). by vm_compute. }
  rewrite Forall_forall in Hall. specialize (Hall _ Hr).
  rewrite Forall_forall in Hall. apply (Hall _ Hq).
Qed.

Lemma quick_actions_pass_filter_witness :
  "How many instances are running in eu-west-1?" ≠ "" ∧
  Assistant.is_tool_request "How many instances are running in eu-west-1?" = false.
Proof.
  apply (quick_actions_pass_filter "eu-west-1" ("💻 Running in " +:+ "eu-west-1"));
    apply (bool_decide_unpack _); by vm_compute.
Defined.

(** ** Folders made by the run *)

Section fresh_folders.
Implicit Types (d : dir) (src c : string) (a : acc) (done : list string).

(** In a folder whose names are all outside the files still to come, each
    file arrives under its own name. *)
Lemma run_own_names src done a d a' d' c (K : gset string) :
  run src done a d a' d' →
  NoDup done →
  dom (folder_kids c d) ⊆ K →
  (∀ f, f ∈ done → f ∉ K) →
  ∃ new,
    file_moves a' = file_moves a ++ new ∧
    Forall (λ m, m_to m = c → m_new_name m = m_file m) new.
Proof.
  intros Hrun. revert K.
  induction Hrun as [a d|f rest a d a1 d1 a' d' Hstep Hrun IH]; intros K Hnd Hdom Hout.
  - exists []. by rewrite app_nil_r.
  - apply NoDup_cons in Hnd as [Hf Hnd].
    apply process_file_done in Hstep
      as (data & new_name & Hname & [Hfree Hfirst] & _ & -> & _ & _ & _ & He).
    assert (c = target_folder_of f → new_name = f) as Hown.
    { intros ->. destruct Hfirst as [->|[[x Hx] _]]; [done|].
      exfalso. apply (Hout f); [left|]. apply Hdom. apply elem_of_dom. eauto. }
    destruct (IH ({[f]} ∪ K) Hnd) as (new & Hmoves & Hall).
    + unfold folder_kids at 1. rewrite He.
      destruct (decide (c = target_folder_of f)) as [Hc|Hne].
      * rewrite (Hown Hc), dom_insert_L. rewrite <- Hc. set_solver.
      * destruct (decide (c = f)) as [->|]; [by rewrite dom_empty_L|].
        fold (folder_kids c d). set_solver.
    + intros g Hg. assert (g ∉ K) by (apply Hout; by right).
      assert (g ≠ f) by (by intros ->). set_solver.
    + cbn in Hmoves.
      exists (Move f "Root Directory" (target_folder_of f) new_name :: new).
      split; [by rewrite Hmoves, <- app_assoc|].
      constructor; [|done]. cbn. intros <-. by apply Hown.
Qed.

End fresh_folders.

(** X13. When the names of the regular files in the root are pairwise
    different, a run that returns the report renames no file that goes
    into a folder the run itself made: a file gets another name only in a
    folder that was there before. *)
Theorem renames_only_in_old_folders (source_directory : string)
    (organize_by_type : bool) (w : fsobj) (text : string) (w' : fsobj) :
  file_organizer source_directory organize_by_type w = Val text w' →
  Py.startswith text Text.msg_complete = true →
  ∃ d a',
    w = Directory d ∧
    text = summary source_directory (regular_files d) a' ∧
    (NoDup (regular_files d) →
     Forall (λ m, m_new_name m ≠ m_file m → is_folder d (m_to m) = true)
            (file_moves a')).
Proof.
  intros Hrun Hok.
  apply success_inv in Hrun as (d & a' & d' & -> & -> & Hloop & ->); [|done].
  apply process_files_run in Hloop.
  exists d, a'. split_and!; [done..|]. intros Hnd.
  apply Forall_forall. intros m Hm Hne.
  destruct (is_folder d (m_to m)) eqn:Hf; [done|]. exfalso. apply Hne.
  destruct (run_own_names _ _ _ _ _ _ (m_to m) ∅ Hloop Hnd) as (new & Hmoves & Hall).
  - by rewrite (not_folder_no_kids _ _ Hf), dom_empty.
  - intros f _. apply not_elem_of_empty.
  - cbn in Hmoves. subst new. rewrite Forall_forall in Hall. by apply Hall.
Qed.

Lemma renames_only_in_old_folders_witness :
  ∃ d a',
    Directory Sample.seven = Directory d ∧
    Forall (λ m, m_new_name m ≠ m_file m → is_folder d (m_to m) = true)
           (file_moves a').
Proof.
  destruct (renames_only_in_old_folders "docs" true (Directory Sample.seven)
              (summary "docs" (regular_files Sample.seven) Sample.seven_end.1.1)
              (Directory Sample.seven_end.1.2))
    as (d & a' & Hd & _ & H); [vm_compute; reflexivity..|].
  exists d, a'. split; [exact Hd|]. apply H. injection Hd as <-.
  apply (bool_decide_unpack _). by vm_compute.
Defined.
